(** * mcp-sysinfo: the collectors and the report assembler

    A shallow embedding of [src/sysinfo/collectors.py] and
    [src/sysinfo/server.py].  Every collector reads the machine through
    probes ([psutil], [subprocess], [requests], files); here each probe is a
    field of the ambient state or an argument, with the outcomes the Python
    call can have: a value, or a raised exception.  *)

From Stdlib Require Import ZArith QArith Lqa Ascii String List Lia Bool.
From Stdlib Require Import Floats.SpecFloat.
From stdpp Require Import gmap strings list sorting pretty.

Close Scope Q_scope.
Open Scope Z_scope.
Open Scope list_scope.

(** ** Python values: exceptions and results *)

(** The exception classes the modelled code names in an [except] clause or
    can meet at a probe. *)
Inductive exn_class :=
  | CalledProcessError | TimeoutExpired | FileNotFoundError | PermissionError
  | OSError | ZeroDivisionError | IndexError | ValueError | TypeError
  | OverflowError | NoSuchProcess | ZombieProcess | AccessDenied
  | RequestException | RuntimeError.

#[global] Instance exn_class_eq_dec : EqDecision exn_class.
Proof. solve_decision. Defined.

(** A raised exception: its class and [str(e)]. *)
Record exn := Exn { exn_cls : exn_class; exn_str : string }.

(** [isinstance(e, c)] for the class hierarchy of Python 3 and psutil:
    [FileNotFoundError] and [PermissionError] derive from [OSError],
    [ZombieProcess] from [NoSuchProcess]. *)
Definition subclass (c parent : exn_class) : bool :=
  bool_decide (c = parent) ||
  match c, parent with
  | FileNotFoundError, OSError | PermissionError, OSError => true
  | ZombieProcess, NoSuchProcess => true
  | _, _ => false
  end.

(** [except (c1, c2, ...)] *)
Definition caught_by (cs : list exn_class) (e : exn) : bool :=
  existsb (subclass (exn_cls e)) cs.

Inductive result (A : Type) :=
  | Ok (a : A)
  | Raise (e : exn).
Arguments Ok {A} a.
Arguments Raise {A} e.

(** Sequencing: the first raised exception ends the computation.  The
    notation [x ← r; k] is stdpp's, through these instances. *)
#[global] Instance result_bind : MBind result := λ A B k r,
  match r with
  | Ok a => k a
  | Raise e => Raise e
  end.

#[global] Instance result_ret : MRet result := λ A a, Ok a.

Definition returns {A} (r : result A) : Prop := ∃ a, r = Ok a.

(** ** Python string operations used by the collectors *)

Module Py.

(** [sep.join(l)] *)
Fixpoint join (sep : string) (l : list string) : string :=
  match l with
  | [] => ""
  | [s] => s
  | s :: l' => s +:+ sep +:+ join sep l'
  end.

(** [s.startswith(p)] *)
Definition startswith (p s : string) : bool := String.prefix p s.

(** [sub in s] *)
Fixpoint contains (sub s : string) : bool :=
  String.prefix sub s ||
  match s with
  | EmptyString => false
  | String _ s' => contains sub s'
  end.

(** [s.split(c)] for a one-character separator: never the empty list. *)
Fixpoint split (c : ascii) (s : string) : list string :=
  match s with
  | EmptyString => [""]
  | String a s' =>
      if Ascii.eqb a c then "" :: split c s'
      else match split c s' with
           | w :: ws => String a w :: ws
           | [] => [String a ""]
           end
  end.

(** The white space of [str.strip()] and [str.split()] among the
    characters below 128. *)
Definition isspace (a : ascii) : bool :=
  let n := N_of_ascii a in
  ((9 <=? n) && (n <=? 13) || (28 <=? n) && (n <=? 32))%N.

Fixpoint lstrip (s : string) : string :=
  match s with
  | EmptyString => ""
  | String a s' => if isspace a then lstrip s' else s
  end.

Fixpoint rstrip (s : string) : string :=
  match s with
  | EmptyString => ""
  | String a s' =>
      match rstrip s' with
      | EmptyString => if isspace a then "" else String a ""
      | r => String a r
      end
  end.

(** [s.strip()] *)
Definition strip (s : string) : string := rstrip (lstrip s).

Fixpoint split_ws_go (s : string) : string * list string :=
  match s with
  | EmptyString => ("", [])
  | String a s' =>
      let '(w, ws) := split_ws_go s' in
      if isspace a
      then ("", match w with EmptyString => ws | _ => w :: ws end)
      else (String a w, ws)
  end.

(** [s.split()]: the maximal runs of non-space characters. *)
Definition split_ws (s : string) : list string :=
  let '(w, ws) := split_ws_go s in
  match w with EmptyString => ws | _ => w :: ws end.

Definition lower_char (a : ascii) : ascii :=
  let n := N_of_ascii a in
  if ((65 <=? n) && (n <=? 90))%N then ascii_of_N (n + 32) else a.

(** [s.lower()] as far as ASCII goes.  A string is the UTF-8 bytes of the
    Python text.  The letters A-Z are lowered; so are the two characters
    outside ASCII whose lower case has an ASCII letter: the Kelvin sign
    (U+212A, bytes 226 132 170) becomes [k], and the capital I with dot
    (U+0130, bytes 196 176) becomes [i] followed by the combining dot
    (U+0307, bytes 204 135).  Other letters outside ASCII keep their bytes:
    their lower case is outside ASCII as well, so no comparison with an
    ASCII text and no search for one is changed. *)
Fixpoint lower (s : string) : string :=
  match s with
  | EmptyString => ""
  | String "226" (String "132" (String "170" s')) => String "k" (lower s')
  | String "196" (String "176" s') =>
      String "i" (String "204" (String "135" (lower s')))
  | String a s' => String (lower_char a) (lower s')
  end.

(** A byte [10xxxxxx] continues the code point of the byte before it. *)
Definition is_cont (a : ascii) : bool :=
  let n := N_of_ascii a in ((128 <=? n) && (n <? 192))%N.

(** [len(s)]: the number of code points, one per byte that is no
    continuation byte. *)
Fixpoint len (s : string) : nat :=
  match s with
  | EmptyString => 0
  | String a s' => if is_cont a then len s' else S (len s')
  end.

(** [s[:n]]: the first [n] code points, each with its continuation
    bytes. *)
Fixpoint take (n : nat) (s : string) : string :=
  match s with
  | EmptyString => ""
  | String a s' =>
      if is_cont a then String a (take n s')
      else match n with
           | O => ""
           | S n' => String a (take n' s')
           end
  end.

(** [s[k:]]: what is left after the first [k] code points. *)
Fixpoint drop (k : nat) (s : string) : string :=
  match s with
  | EmptyString => ""
  | String a s' =>
      if is_cont a then drop k s'
      else match k with
           | O => s
           | S k' => drop k' s'
           end
  end.

(** [s[-n:]] *)
Definition take_last (n : nat) (s : string) : string :=
  drop (len s - n) s.

(** [l[-1]] of a list that [split] returned *)
Definition last (l : list string) : string := List.last l "".

(** [str(n)] and [f"{n}"] for an [int] *)
Definition str_of_int (n : Z) : string := pretty n.

End Py.

(** ** The external-command helper *)

(** What [subprocess.check_output(cmd, text=True, timeout=t)] does on this
    machine: the text the command printed, or the exception raised
    ([CalledProcessError] for a non-zero exit status, [TimeoutExpired],
    [FileNotFoundError] for a missing binary, or any other class). *)
Definition check_output_t := list string → Z → result string.

Definition safe_subprocess (check_output : check_output_t)
    (cmd : list string) (timeout : Z) : result string :=
  match check_output cmd timeout with
  | Ok out => Ok out
  | Raise e =>
      if caught_by [CalledProcessError; TimeoutExpired; FileNotFoundError] e
      then Ok ""
      else Raise e
  end.

(** The default [timeout=5]. *)
Definition default_timeout : Z := 5.

(** ** Text constants *)

(** The line feed, ["\n"] in the source. *)
Definition LF : ascii := "010"%char.
Definition NL : string := String LF "".
Definition QUOTE : ascii := "034"%char.
Definition COLON : ascii := ":"%char.

(** [bool(s)] of a string: non-empty. *)
Definition truthy (s : string) : bool := negb (bool_decide (s = "")).

(** ** GPU sub-collector *)

(** One line of [system_profiler SPDisplaysDataType] on macOS. *)
Definition gpu_line_darwin (line0 : string) : list string :=
  let line := Py.strip line0 in
  if Py.contains "Chipset Model:" line then
    ["- **GPU**: " +:+ Py.strip (Py.last (Py.split COLON line))]
  else if Py.contains "VRAM" line then
    ["  - **VRAM**: " +:+ Py.strip (Py.last (Py.split COLON line))]
  else [].

(** One selected line of [lspci -mm] on Linux. *)
Definition gpu_line_linux (gpu : string) : list string :=
  let parts := Py.split QUOTE gpu in
  if bool_decide (6 ≤ length parts)%nat then
    match parts !! 5%nat with
    | Some p => ["- **GPU**: " +:+ p]
    | None => []
    end
  else [].

(** [_get_gpu_info]: everything is inside [try ... except Exception: pass];
    the only call that can raise is the command helper, before any line
    is appended. *)
Definition _get_gpu_info (system : string) (check_output : check_output_t)
    : list string :=
  if bool_decide (system = "Darwin") then
    match safe_subprocess check_output
            ["system_profiler"; "SPDisplaysDataType"] default_timeout with
    | Ok gpu_output =>
        if truthy gpu_output then
          (NL +:+ "### Graphics Cards")
            :: flat_map gpu_line_darwin (Py.split LF gpu_output)
        else []
    | Raise _ => []
    end
  else if bool_decide (system = "Linux") then
    match safe_subprocess check_output ["lspci"; "-mm"] default_timeout with
    | Ok gpu_output =>
        if truthy gpu_output then
          let gpus := filter (λ line, Py.contains "VGA" line
                                      || Py.contains "3D" line = true)
                             (Py.split LF gpu_output) in
          match gpus with
          | [] => []
          | _ => (NL +:+ "### Graphics Cards")
                   :: flat_map gpu_line_linux (take 3 gpus)
          end
        else []
    | Raise _ => []
    end
  else [].

(** The GPU entries among emitted lines. *)
Definition is_gpu_entry (line : string) : bool :=
  Py.startswith "- **GPU**: " line.

Definition gpu_entries (lines : list string) : nat :=
  length (filter (λ l, is_gpu_entry l = true) lines).

(** ** Network collector *)

(** [psutil.net_if_addrs()] values: [addr.family.name], [addr.address],
    [addr.netmask] ([None] when absent). *)
Record snicaddr := Snicaddr {
  family_name : string;
  address : string;
  netmask : option string
}.

(** [psutil.net_if_stats()] values; only [isup] is read. *)
Record snicstats := Snicstats { isup : bool }.

(** The outcome of [requests.get(url, timeout=5)]: a response with its
    [status_code] and [text], or an exception (time-out, connection
    failure, ...). *)
Record response := Response { status_code : Z; text : string }.

(** What the network collector reads from the machine.  [net_if_addrs] is
    a dict: its items in iteration order. *)
Record net_state := NetState {
  net_system : string;
  net_check_output : check_output_t;
  net_if_addrs : result (list (string * list snicaddr));
  net_if_stats : result (gmap string snicstats);
  resolv_conf : result (list string);
  requests_get : result response
}.

(** [if stats and stats.isup], [stats] being [net_stats.get(interface)] *)
Definition stats_up (stats : option snicstats) : bool :=
  match stats with
  | Some st => isup st
  | None => false
  end.

Definition addr_lines (addr : snicaddr) : list string :=
  if bool_decide (family_name addr = "AF_INET") then
    ("- **IPv4**: " +:+ address addr)
      :: match netmask addr with
         | Some m => if truthy m then ["  - **Netmask**: " +:+ m] else []
         | None => []
         end
  else if bool_decide (family_name addr = "AF_INET6") then
    if negb (Py.startswith "fe80" (address addr))
    then ["- **IPv6**: " +:+ address addr]
    else []
  else [].

(** The interfaces left out of the per-interface display. *)
Definition skipped_name (interface : string) : bool :=
  Py.startswith "lo" interface || Py.startswith "utun" interface.

(** One iteration of the loop over [net_interfaces.items()]. *)
Definition interface_section (net_stats : gmap string snicstats)
    (item : string * list snicaddr) : list string :=
  let '(interface, addresses) := item in
  if skipped_name interface then []
  else
    match net_stats !! interface with
    | Some stats =>
        if isup stats then
          (NL +:+ "### " +:+ interface)
            :: ("- **Status**: " +:+ (if isup stats then "Up" else "Down"))
            :: flat_map addr_lines addresses
        else []
    | None => []
    end.

(** The first line with ['gateway:'] in it, in [route -n get default]. *)
Fixpoint gateway_darwin (lines : list string) : string :=
  match lines with
  | [] => ""
  | line :: rest =>
      if Py.contains "gateway:" line
      then Py.strip (Py.last (Py.split COLON line))
      else gateway_darwin rest
  end.

Definition _get_default_gateway (system : string)
    (check_output : check_output_t) : string :=
  if bool_decide (system = "Darwin") then
    match safe_subprocess check_output
            ["route"; "-n"; "get"; "default"] default_timeout with
    | Ok output => gateway_darwin (Py.split LF output)
    | Raise _ => ""
    end
  else if bool_decide (system = "Linux") then
    match safe_subprocess check_output
            ["ip"; "route"; "show"; "default"] default_timeout with
    | Ok output =>
        if truthy output then
          match Py.split_ws output !! 2%nat with
          | Some gw => gw
          | None => ""
          end
        else ""
    | Raise _ => ""
    end
  else "".

(** The loop over the lines of [scutil --dns], [dns_servers] being the list
    built so far. *)
Fixpoint dns_darwin (lines : list string) (dns_servers : list string)
    : list string :=
  match lines with
  | [] => dns_servers
  | line :: rest =>
      if Py.contains "nameserver[0]" line then
        let dns := Py.strip (Py.last (Py.split COLON line)) in
        if bool_decide (dns ∈ dns_servers) then dns_darwin rest dns_servers
        else dns_darwin rest (dns_servers ++ [dns])
      else dns_darwin rest dns_servers
  end.

(** The loop over the lines of [/etc/resolv.conf]; [line.split()[1]] raises
    [IndexError] on a bare [nameserver], which ends the loop with what was
    appended before. *)
Fixpoint dns_linux (lines : list string) (dns_servers : list string)
    : list string :=
  match lines with
  | [] => dns_servers
  | line :: rest =>
      if Py.startswith "nameserver" line then
        match Py.split_ws line !! 1%nat with
        | Some dns => dns_linux rest (dns_servers ++ [dns])
        | None => dns_servers
        end
      else dns_linux rest dns_servers
  end.

Definition _get_dns_servers (st : net_state) : list string :=
  if bool_decide (net_system st = "Darwin") then
    match safe_subprocess (net_check_output st)
            ["scutil"; "--dns"] default_timeout with
    | Ok output => dns_darwin (Py.split LF output) []
    | Raise _ => []
    end
  else if bool_decide (net_system st = "Linux") then
    match resolv_conf st with
    | Ok lines => dns_linux lines []
    | Raise _ => []
    end
  else [].

Definition UNABLE : string := "Unable to determine".

Definition _get_external_ip (get : result response) : string :=
  match get with
  | Ok resp =>
      if bool_decide (status_code resp = 200) then Py.strip (text resp)
      else UNABLE
  | Raise _ => UNABLE
  end.

Definition vpn_names : list string := ["tun"; "tap"; "vpn"; "utun"].

Definition vpn_like (interface : string) : bool :=
  existsb (λ vpn_name, Py.contains vpn_name (Py.lower interface)) vpn_names.

(** [_detect_vpn]: over every key of [net_interfaces]. *)
Fixpoint _detect_vpn (interfaces : list string)
    (net_stats : gmap string snicstats) : string :=
  match interfaces with
  | [] => "Not detected"
  | interface :: rest =>
      if vpn_like interface && stats_up (net_stats !! interface)
      then "Active"
      else _detect_vpn rest net_stats
  end.

Definition external_ip_line (st : net_state) : string :=
  "- **External IP**: " +:+ _get_external_ip (requests_get st).

Definition get_network_info (st : net_state) : result (list string) :=
  net_interfaces ← net_if_addrs st;
  net_stats ← net_if_stats st;
  let gateway := _get_default_gateway (net_system st) (net_check_output st) in
  let dns_servers := _get_dns_servers st in
  Ok ([NL +:+ "## 🌐 Network"]
      ++ flat_map (interface_section net_stats) net_interfaces
      ++ (if truthy gateway
          then [NL +:+ "- **Default Gateway**: " +:+ gateway] else [])
      ++ (match dns_servers with
          | [] => []
          | _ => ["- **DNS Servers**: " +:+ Py.join ", " (take 3 dns_servers)]
          end)
      ++ [external_ip_line st]
      ++ ["- **VPN Status**: " +:+ _detect_vpn net_interfaces.*1 net_stats]).

(** ** Python floats and the ['.1f'] format *)

(** A Python [float] is an IEEE 754 binary64 number: [spec_float] with a
    53-bit significand and [emax = 1024]. *)
Definition prec : Z := 53.
Definition emax : Z := 1024.

(** [float(n)] for an [int]: the nearest float, ties to even. *)
Definition float_of_int (n : Z) : spec_float :=
  binary_normalize prec emax n 0 false.

(** The integer [n] as significand with exponent 0, the operand of [/]. *)
Definition exact_of_int (n : Z) : spec_float :=
  match n with
  | Z0 => S754_zero false
  | Zpos p => S754_finite false p 0
  | Zneg p => S754_finite true p 0
  end.

(** [a / b] on two [int]s: the correctly rounded quotient,
    [ZeroDivisionError] when [b] is 0. *)
Definition int_truediv (a b : Z) : result spec_float :=
  if bool_decide (b = 0) then Raise (Exn ZeroDivisionError "division by zero")
  else
    match SFdiv prec emax (exact_of_int a) (exact_of_int b) with
    | S754_infinity _ =>
        Raise (Exn OverflowError "integer division result too large for a float")
    | q => Ok q
    end.

(** [n / d] rounded to the nearest integer, ties to even ([0 < d]). *)
Definition round_half_even (n d : Z) : Z :=
  let q := n / d in
  match 2 * (n mod d) ?= d with
  | Lt => q
  | Gt => q + 1
  | Eq => if Z.even q then q else q + 1
  end.

(** The magnitude of a finite float as the fraction [SFnum / SFden]. *)
Definition SFnum (x : spec_float) : Z :=
  match x with
  | S754_finite _ m e => if 0 <=? e then Zpos m * 2 ^ e else Zpos m
  | _ => 0
  end.

Definition SFden (x : spec_float) : Z :=
  match x with
  | S754_finite _ _ e => if 0 <=? e then 1 else 2 ^ (- e)
  | _ => 1
  end.

(** The magnitude in tenths that ['.1f'] prints: the exact binary value
    times ten, rounded to an integer, ties to even. *)
Definition tenths (x : spec_float) : Z :=
  round_half_even (10 * SFnum x) (SFden x).

Definition fmt_tenths (negative : bool) (t : Z) : string :=
  (if negative then "-" else "")
    +:+ Py.str_of_int (t / 10) +:+ "." +:+ Py.str_of_int (t mod 10).

(** [f"{x:.1f}"] for a float. *)
Definition fmt_1f (x : spec_float) : string :=
  match x with
  | S754_nan => "nan"
  | S754_infinity s => if s then "-inf" else "inf"
  | S754_zero s => fmt_tenths s 0
  | S754_finite s _ _ => fmt_tenths s (tenths x)
  end.

(** ** Storage collector *)

(** [psutil.disk_partitions()] entries. *)
Record sdiskpart := Sdiskpart {
  device : string;
  mountpoint : string;
  fstype : string;
  opts : string
}.

(** [psutil.disk_usage(path)]: byte counts. *)
Record sdiskusage := Sdiskusage { total : Z; used : Z; free : Z }.

Record storage_state := StorageState {
  disk_partitions : result (list sdiskpart);
  disk_usage : string → result sdiskusage
}.

(** [1024**3] *)
Definition GiB : Z := 1024 ^ 3.

Definition hundred : spec_float := float_of_int 100.

(** [(disk_usage.used / disk_usage.total) * 100] *)
Definition used_percent_of (u : sdiskusage) : result spec_float :=
  ratio ← int_truediv (used u) (total u);
  Ok (SFmul prec emax ratio hundred).

Definition free_line (free_gb used_percent : spec_float) : string :=
  "- **Free**: " +:+ fmt_1f free_gb +:+ " GB ("
    +:+ fmt_1f (SFsub prec emax hundred used_percent) +:+ "% free)".

Definition used_line (used_percent : spec_float) : string :=
  "- **Used**: " +:+ fmt_1f used_percent +:+ "%".

Definition partition_report (partition : sdiskpart) (disk_type : string)
    (total_gb free_gb used_percent : spec_float) : list string :=
  [ NL +:+ "### " +:+ device partition +:+ " (" +:+ mountpoint partition +:+ ")";
    "- **Type**: " +:+ disk_type +:+ " (" +:+ fstype partition +:+ ")";
    "- **Total**: " +:+ fmt_1f total_gb +:+ " GB";
    free_line free_gb used_percent;
    used_line used_percent ].

(** The body of the [try] for one partition. *)
Definition partition_lines (usage : string → result sdiskusage)
    (partition : sdiskpart) : result (list string) :=
  u ← usage (mountpoint partition);
  total_gb ← int_truediv (total u) GiB;
  free_gb ← int_truediv (free u) GiB;
  used_percent ← used_percent_of u;
  if truthy (opts partition) && Py.contains "removable" (opts partition) then
    Ok (partition_report partition "Removable" total_gb free_gb used_percent)
  else if bool_decide (fstype partition ∈ ["tmpfs"; "devtmpfs"]) then
    Ok []
  else
    Ok (partition_report partition "Fixed" total_gb free_gb used_percent).

(** The loop over the partitions: [except (PermissionError, OSError):
    continue]; any other exception leaves the collector. *)
Fixpoint storage_loop (usage : string → result sdiskusage)
    (partitions : list sdiskpart) : result (list string) :=
  match partitions with
  | [] => Ok []
  | partition :: rest =>
      match partition_lines usage partition with
      | Ok lines =>
          more ← storage_loop usage rest;
          Ok (lines ++ more)
      | Raise e =>
          if caught_by [PermissionError; OSError] e
          then storage_loop usage rest
          else Raise e
      end
  end.

Definition get_storage_info (st : storage_state) : result (list string) :=
  partitions ← disk_partitions st;
  lines ← storage_loop (disk_usage st) partitions;
  Ok ((NL +:+ "## 💾 Storage") :: lines).

(** ** Time and locale collector *)

(** The [time] module's zone data, [now.strftime('%Y-%m-%d %H:%M:%S')] and
    the outcome of [locale.getdefaultlocale()]. *)
Record time_state := TimeState {
  now_text : string;
  tzname : string * string;
  daylight : Z;
  timezone : Z;
  altzone : Z;
  getdefaultlocale : result (option string * option string)
}.

(** [f"{n:02d}"] for [0 ≤ n] *)
Definition fmt_02d (n : Z) : string :=
  let s := Py.str_of_int n in
  if bool_decide (String.length s < 2)%nat then "0" +:+ s else s.

(** [-utc_offset // 3600]: the unary minus binds first, [//] rounds down. *)
Definition offset_hours_of (utc_offset : Z) : Z := (- utc_offset) / 3600.

Definition utc_offset_of (st : time_state) : Z :=
  if bool_decide (daylight st = 0) then timezone st else altzone st.

Definition utc_offset_line (utc_offset : Z) : string :=
  let offset_hours := offset_hours_of utc_offset in
  let offset_sign := if bool_decide (0 ≤ offset_hours) then "+" else "-" in
  "- **UTC Offset**: UTC" +:+ offset_sign
    +:+ fmt_02d (Z.abs offset_hours) +:+ ":00".

Definition timezone_lines (st : time_state) : list string :=
  let timezone_name :=
    if bool_decide (daylight st = 0) then (tzname st).1 else (tzname st).2 in
  [ "- **Timezone**: " +:+ timezone_name;
    utc_offset_line (utc_offset_of st) ].

Definition opt_truthy (o : option string) : option string :=
  match o with
  | Some s => if truthy s then Some s else None
  | None => None
  end.

Definition locale_lines (st : time_state) : list string :=
  match getdefaultlocale st with
  | Ok system_locale =>
      (match opt_truthy system_locale.1 with
       | Some lang => ["- **System Language**: " +:+ lang]
       | None => []
       end)
      ++ (match opt_truthy system_locale.2 with
          | Some enc => ["- **Encoding**: " +:+ enc]
          | None => []
          end)
  | Raise _ => []
  end.

Definition get_time_locale_info (st : time_state) : list string :=
  [ NL +:+ "## 🕐 Time & Locale";
    "- **Current Time**: " +:+ now_text st ]
  ++ timezone_lines st
  ++ locale_lines st.

(** ** Sorting as [list.sort] and [sorted] do it *)

(** Python's sort is stable and compares keys with [<] only; on keys that
    [<] orders totally its result is the stable insertion sort's. *)
Fixpoint insert_sorted {A} (lt : A → A → bool) (x : A) (l : list A) : list A :=
  match l with
  | [] => [x]
  | y :: l' => if lt y x then y :: insert_sorted lt x l' else x :: l
  end.

(** [sorted(l, key=...)], [lt a b] being [key(a) < key(b)]. *)
Definition py_sorted {A} (lt : A → A → bool) (l : list A) : list A :=
  foldr (insert_sorted lt) [] l.

(** [sorted(l, key=..., reverse=True)]: descending, equal keys in their
    original order. *)
Definition py_sorted_reverse {A} (lt : A → A → bool) (l : list A) : list A :=
  py_sorted (λ a b, lt b a) l.

(** ** Process collector *)

(** Percentages are finite floats; a finite float is the rational it
    denotes, and [<], [==] and ['.1f'] depend on that value only. *)
Definition Qltb (x y : Q) : bool := negb (Qle_bool y x).

(** [f"{q:.1f}"] *)
Definition fmt_1f_Q (q : Q) : string :=
  fmt_tenths (Qltb q 0)
             (round_half_even (10 * Z.abs (Qnum q)) (Zpos (Qden q))).

(** The float literals [0.1] (the binary64 number nearest to one tenth)
    and [0.5]. *)
Definition float_0_1 : Q := 3602879701896397 # 36028797018963968.
Definition float_0_5 : Q := 1 # 2.

(** One process as [psutil.process_iter] yields it: the [proc.info]
    entries the collector reads and the outcome of [proc.cpu_percent()].
    [process_iter] stores [None] for an attribute whose retrieval is
    denied, so [name], [memory_percent], [exe] and [cmdline] may be
    [None]. *)
Record scanned := Scanned {
  s_pid : Z;
  s_name : option string;
  s_memory_percent : option Q;
  s_exe : option string;
  s_cmdline : option (list string);
  s_cpu_percent : result Q
}.

(** An entry of the list [processes]. *)
Record pinfo := Pinfo {
  pid : Z;
  name : string;
  cpu_percent : Q;
  memory_percent : option Q;
  exe : option string;
  cmdline : option (list string)
}.

(** The scan loop: processes without a name are left out, and so are those
    whose CPU probe raises [NoSuchProcess], [AccessDenied] or
    [ZombieProcess]. *)
Fixpoint scan_processes (procs : list scanned) : result (list pinfo) :=
  match procs with
  | [] => Ok []
  | proc :: rest =>
      match opt_truthy (s_name proc) with
      | Some n =>
          match s_cpu_percent proc with
          | Ok cpu =>
              processes ← scan_processes rest;
              Ok (Pinfo (s_pid proc) n cpu (s_memory_percent proc)
                        (s_exe proc) (s_cmdline proc) :: processes)
          | Raise e =>
              if caught_by [NoSuchProcess; AccessDenied; ZombieProcess] e
              then scan_processes rest
              else Raise e
          end
      | None => scan_processes rest
      end
  end.

(** [(cpu1, mem1) < (cpu2, mem2)] on the key tuples: the first components
    that are not [==] decide, by their [<].  [None == None] holds, [None]
    equals no number, and [<] between [None] and a number raises
    [TypeError]: no result. *)
Definition key_lt (p1 p2 : pinfo) : option bool :=
  if Qeq_bool (cpu_percent p1) (cpu_percent p2) then
    match memory_percent p1, memory_percent p2 with
    | Some m1, Some m2 => Some (Qltb m1 m2)
    | None, None => Some false
    | _, _ => None
    end
  else Some (Qltb (cpu_percent p1) (cpu_percent p2)).

(** The [TypeError] of [<] between [None] and a number, [none_first]
    telling which operand is [None]. *)
Definition lt_error (none_first : bool) : exn :=
  Exn TypeError
    (if none_first
     then "'<' not supported between instances of 'NoneType' and 'float'"
     else "'<' not supported between instances of 'float' and 'NoneType'").

(** Every two keys of the list have a [<]. *)
Definition comparable (processes : list pinfo) : bool :=
  forallb (λ p1, forallb (λ p2, bool_decide (is_Some (key_lt p1 p2)))
                         processes) processes.

(** [processes.sort(key=lambda x: (cpu, memory), reverse=True)].  On keys
    that [<] orders the result is the stable descending sort.  When two
    keys of the list have no [<], the sort has to compare two such keys
    before it can place them (it would otherwise sort the list in the same
    way whether [None] stood for a large or for a small number), and the
    [TypeError] leaves it.  Which operand is [None] in that comparison
    depends on the order in which [list.sort] compares; that order is not
    modelled, the operand order is the argument [none_first]. *)
Definition sort_processes (none_first : bool) (processes : list pinfo)
    : result (list pinfo) :=
  if comparable processes
  then Ok (py_sorted_reverse (λ p1 p2, default false (key_lt p1 p2)) processes)
  else Raise (lt_error none_first).

Definition important_names : list string :=
  ["kernel_task"; "systemd"; "init"; "launchd"].

(** [name = proc.get('name', 'Unknown')[:20]] *)
Definition display_name (proc : pinfo) : string := Py.take 20 (name proc).

(** The condition of the last [if] of the loop, [memory] being a number. *)
Definition shown (proc : pinfo) (memory : Q) : bool :=
  Qltb float_0_1 (cpu_percent proc)
  || Qltb float_0_5 memory
  || bool_decide (Py.lower (display_name proc) ∈ important_names).

(** What the same [if] and the row do when [memory] is [None]: with a CPU
    value above 0.1 the condition holds without [memory] being read, and
    the format ['{memory:.1f}'] of the row raises; otherwise
    [memory > 0.5] raises. *)
Definition memory_error (proc : pinfo) : exn :=
  Exn TypeError
    (if Qltb float_0_1 (cpu_percent proc)
     then "unsupported format string passed to NoneType.__format__"
     else "'>' not supported between instances of 'NoneType' and 'float'").

Definition exe_path_of (proc : pinfo) : string :=
  let exe_path :=
    match opt_truthy (exe proc) with
    | Some path => path
    | None =>
        match cmdline proc with
        | Some (first :: _) => first
        | _ => ""
        end
    end in
  if truthy exe_path then
    if bool_decide (40 < Py.len exe_path)%nat
    then "..." +:+ Py.take_last 37 exe_path
    else exe_path
  else "N/A".

Definition process_row (proc : pinfo) (memory : Q) : string :=
  "| " +:+ Py.str_of_int (pid proc) +:+ " | " +:+ display_name proc
    +:+ " | " +:+ fmt_1f_Q (cpu_percent proc)
    +:+ "% | " +:+ fmt_1f_Q memory
    +:+ "% | " +:+ exe_path_of proc +:+ " |".

(** The display loop, [count] rows being emitted so far: the rows it
    appends, each a process with the number read as its memory, and the
    exception that ends the loop, if one does. *)
Fixpoint display_loop (count : nat) (processes : list pinfo)
    : list (pinfo * Q) * option exn :=
  match processes with
  | [] => ([], None)
  | proc :: rest =>
      if bool_decide (20 ≤ count)%nat then ([], None)
      else
        match memory_percent proc with
        | Some memory =>
            if shown proc memory then
              let '(rows, raised) := display_loop (S count) rest in
              ((proc, memory) :: rows, raised)
            else display_loop count rest
        | None => ([], Some (memory_error proc))
        end
  end.

Definition process_summary (processes : list pinfo) : string :=
  NL +:+ "**Summary**: " +:+ Py.str_of_int (Z.of_nat (length processes))
    +:+ " total processes, "
    +:+ Py.str_of_int
          (Z.of_nat (length (filter (λ p, Qltb 0 (cpu_percent p) = true)
                                    processes)))
    +:+ " active".

Definition process_table_header : list string :=
  [ NL +:+ "### Top Processes (by CPU/Memory usage)";
    "| PID | Name | CPU% | Memory% | Path |";
    "|-----|------|------|---------|------|" ].

(** The line of the [except] clause. *)
Definition process_error (e : exn) : string :=
  "⚠️ **Error collecting process information**: " +:+ exn_str e.

(** Scan and sort come before anything but the heading is appended; the
    display loop runs after the three header lines, and each of its rows
    is appended as it is made. *)
Definition get_running_processes (none_first : bool) (procs : list scanned)
    : list string :=
  "## ⚙️ Running Processes" ::
  match processes ← scan_processes procs;
        sort_processes none_first processes with
  | Ok processes =>
      let '(rows, raised) := display_loop 0 processes in
      process_table_header
        ++ ((λ row, process_row row.1 row.2) <$> rows)
        ++ [ match raised with
             | None => process_summary processes
             | Some e => process_error e
             end ]
  | Raise e => [process_error e]
  end.

(** ** Port collector *)

(** A [psutil] connection: [laddr] and [raddr] are [(ip, port)] or empty,
    [pid] may be [None], [type] is the socket type (1 for a stream). *)
Record sconn := Sconn {
  status : string;
  laddr : option (string * Z);
  raddr : option (string * Z);
  conn_pid : option Z;
  conn_type : Z
}.

Definition CONN_LISTEN : string := "LISTEN".
Definition CONN_ESTABLISHED : string := "ESTABLISHED".

(** The probes of the port collector: the three ways to list connections,
    and for a pid the outcome of [psutil.Process(pid).name()] and of
    [proc.exe()]. *)
Record ports_state := PortsState {
  net_connections : result (list sconn);
  net_connections_pid_none : result (list sconn);
  process_connections : result (list sconn);
  process_name : Z → result string;
  process_exe : Z → result string
}.

(** A value of the dict [listening_ports]. *)
Record port_info := PortInfo {
  pi_port : Z;
  pi_ip : string;
  pi_protocol : string;
  pi_process : string;
  pi_executable : string;
  pi_pid : option Z
}.

(** [f"{ip}:{port}"] *)
Definition port_key (ip : string) (port : Z) : string :=
  ip +:+ ":" +:+ Py.str_of_int port.

(** [bool(pid)] for [pid] an [int] or [None]. *)
Definition pid_truthy (pid : option Z) : option Z :=
  match pid with
  | Some p => if bool_decide (p = 0) then None else Some p
  | None => None
  end.

Definition ACCESS_DENIED : string := "Access denied".

(** Name and executable of the owning process: the two nested [try]
    blocks.  An exception that neither [except] clause names leaves them. *)
Definition resolve_process (st : ports_state) (p : Z)
    : result (string * string) :=
  match process_name st p with
  | Ok proc_name =>
      match process_exe st p with
      | Ok path => Ok (proc_name, if truthy path then path else "N/A")
      | Raise e =>
          if caught_by [AccessDenied; OSError] e
          then Ok (proc_name, ACCESS_DENIED)
          else if caught_by [NoSuchProcess; AccessDenied; OSError] e
          then Ok (ACCESS_DENIED, "N/A")
          else Raise e
      end
  | Raise e =>
      if caught_by [NoSuchProcess; AccessDenied; OSError] e
      then Ok (ACCESS_DENIED, "N/A")
      else Raise e
  end.

Definition has_key {V} (key : string) (d : list (string * V)) : bool :=
  bool_decide (key ∈ d.*1).

(** The two collections the loop fills: the dict [listening_ports] as its
    items in insertion order, and [established_connections] as the
    [remote] strings. *)
Definition port_tables : Type := list (string * port_info) * list string.

(** One iteration of the loop over [connections]; [except Exception:
    continue] leaves both collections as they were. *)
Definition add_connection (st : ports_state) (acc : port_tables)
    (conn : sconn) : port_tables :=
  let '(listening_ports, established_connections) := acc in
  match laddr conn with
  | Some (ip, port) =>
      if bool_decide (status conn = CONN_LISTEN) then
        if has_key (port_key ip port) listening_ports then acc
        else
          let resolved :=
            match pid_truthy (conn_pid conn) with
            | Some p => resolve_process st p
            | None => Ok ("Unknown", "N/A")
            end in
          match resolved with
          | Ok (proc_name, proc_exe) =>
              (listening_ports ++
                 [(port_key ip port,
                   PortInfo port ip
                     (if bool_decide (conn_type conn = 1) then "TCP" else "UDP")
                     proc_name proc_exe (conn_pid conn))],
               established_connections)
          | Raise _ => acc
          end
      else if bool_decide (status conn = CONN_ESTABLISHED) then
        match raddr conn with
        | Some (rip, rport) =>
            (listening_ports, established_connections ++ [port_key rip rport])
        | None => acc
        end
      else acc
  | None => acc
  end.

Definition scan_connections (st : ports_state) (connections : list sconn)
    : port_tables :=
  foldl (add_connection st) ([], []) connections.



(** [sorted(listening_ports.values(), key=lambda x: x['port'])] *)
Definition sorted_ports (listening_ports : list (string * port_info))
    : list port_info :=
  py_sorted (λ a b, pi_port a <? pi_port b) listening_ports.*2.


(** The histogram [remote_hosts], a dict in insertion order. *)
Fixpoint count_host (host : string) (hosts : list (string * Z))
    : list (string * Z) :=
  match hosts with
  | [] => [(host, 1)]
  | (h, n) :: rest =>
      if bool_decide (h = host) then (h, n + 1) :: rest
      else (h, n) :: count_host host rest
  end.

Definition remote_ip_of (remote : string) : string :=
  match Py.split COLON remote with
  | ip :: _ => ip
  | [] => ""
  end.

Definition remote_hosts_of (established_connections : list string)
    : list (string * Z) :=
  foldl (λ hosts remote, count_host (remote_ip_of remote) hosts)
        [] established_connections.

Definition host_line (item : string * Z) : string :=
  "- " +:+ item.1 +:+ ": " +:+ Py.str_of_int item.2
    +:+ " connection" +:+ (if bool_decide (1 < item.2) then "s" else "").

Definition established_lines (established_connections : list string)
    : list string :=
  match established_connections with
  | [] => []
  | _ =>
      [ NL +:+ "### Active Connections";
        "**Total established connections**: "
          +:+ Py.str_of_int (Z.of_nat (length established_connections)) ]
      ++ match remote_hosts_of established_connections with
         | [] => []
         | remote_hosts =>
             (NL +:+ "**Top remote hosts by connection count**:")
               :: map host_line
                    (take 10 (py_sorted_reverse (λ a b, a.2 <? b.2)
                                                remote_hosts))
         end
  end.


(** The three privilege tiers. *)
Definition connections_of (st : ports_state) : result (list sconn) :=
  match net_connections st with
  | Ok connections => Ok connections
  | Raise e =>
      if caught_by [AccessDenied] e then
        match net_connections_pid_none st with
        | Ok connections => Ok connections
        | Raise _ => process_connections st
        end
      else Raise e
  end.


(** ** The report assembler, [server.py] *)

Module Server.

(** [f"*Generated: {datetime.now().strftime('%Y-%m-%d %H:%M:%S')}*\n"] *)
Definition generated (now : string) : string :=
  "*Generated: " +:+ now +:+ "*" +:+ NL.

(** [text_response("\n".join(info_sections))]: the text payload. *)
Definition text_response (info_sections : list string) : string :=
  Py.join NL info_sections.

(** A run of [info_sections.extend(f())] statements inside one [try]: the
    sections collected when the block is left, and the exception that
    ended it, if one did. *)
Fixpoint extend_all {A} (info_sections : list A)
    (calls : list (result (list A))) : list A * option exn :=
  match calls with
  | [] => (info_sections, None)
  | Ok lines :: rest => extend_all (info_sections ++ lines) rest
  | Raise e :: _ => (info_sections, Some e)
  end.

(** The shape shared by the single-collector tools: title, time stamp, one
    [try] around the collector calls, one [except Exception] that appends
    [label] and [str(e)]. *)
Definition tool (title now label : string)
    (calls : list (result (list string))) : string :=
  let '(info_sections, raised) := extend_all [title; generated now] calls in
  text_response
    (match raised with
     | None => info_sections
     | Some e => info_sections ++ [label +:+ exn_str e]
     end).

Definition get_hardware_details (now : string)
    (hardware : result (list string)) : string :=
  tool "# Hardware Details" now "⚠️ **Hardware detection error**: " [hardware].

Definition get_network_status (now : string)
    (network : result (list string)) : string :=
  tool "# Network Status" now "⚠️ **Network detection error**: " [network].

Definition get_storage_analysis (now : string)
    (storage : result (list string)) : string :=
  tool "# Storage Analysis" now "⚠️ **Storage detection error**: " [storage].

Definition get_running_processes (now : string)
    (processes : result (list string)) : string :=
  tool "# Running Processes" now "⚠️ **Process detection error**: " [processes].

Definition get_open_ports (now : string)
    (ports : result (list string)) : string :=
  tool "# Open Network Ports" now "⚠️ **Port detection error**: " [ports].

Definition report_footer : list string :=
  [NL +:+ "---"; "*Complete system analysis finished*"].

Definition report_error (e : exn) : string :=
  NL +:+ "⚠️ **Error collecting system info**: " +:+ exn_str e.

(** An element of [info_sections]: a line, or an object that is no
    [str], of which the name of its type is kept. *)
Inductive section_item :=
  | Line (text : string)
  | NotText (type_name : string).

(** The lines of ["\n".join(info_sections)], [i] elements being read so
    far: [join] raises [TypeError] at the first element that is no
    [str]. *)
Fixpoint join_items (i : nat) (items : list section_item)
    : result (list string) :=
  match items with
  | [] => Ok []
  | Line text :: rest =>
      lines ← join_items (S i) rest;
      Ok (text :: lines)
  | NotText type_name :: _ =>
      Raise (Exn TypeError ("sequence item " +:+ pretty i
                              +:+ ": expected str instance, " +:+ type_name
                              +:+ " found"))
  end.

(** [info_sections.extend(f())] for a collector [f]. *)
Definition collector_lines (r : result (list string))
    : result (list section_item) :=
  match r with
  | Ok lines => Ok (Line <$> lines)
  | Raise e => Raise e
  end.

(** The statement [info_sections.extend(get_display_info())] of the
    report.  [server.py] binds the name [get_display_info] twice: the
    import of the collector, and after it the definition of the tool of the
    same name, which is what the name holds when the report runs.  The tool
    reaches the collector under the local name [get_display_data]; the
    report has such an alias for the process collector only.  What
    [@mcp.tool] leaves under the name depends on the FastMCP release: the
    tool object, which cannot be called, or the decorated function, which
    returns a [ToolResult] and never a list of lines.  The statement
    therefore raises a [TypeError] (the object is not callable, or the
    [ToolResult] cannot be iterated), or it appends what iterating the
    [ToolResult] yields: its fields, at least one, none of them a [str]. *)
Inductive display_statement :=
  | DisplayRaises (message : string)
  | DisplayExtends (first_type : string) (more_types : list string).

Definition display_items (d : display_statement)
    : result (list section_item) :=
  match d with
  | DisplayRaises message => Raise (Exn TypeError message)
  | DisplayExtends first_type more_types =>
      Ok (NotText <$> first_type :: more_types)
  end.

(** The ten statements of the [try] block of [get_full_system_report], in
    the order of the source.  Nine arguments are the outcomes of the
    collectors called there. *)
Definition report_calls
    (identity hardware : result (list string)) (display : display_statement)
    (network storage devices processes ports user time_locale
       : result (list string))
    : list (result (list section_item)) :=
  [ collector_lines identity; collector_lines hardware; display_items display;
    collector_lines network; collector_lines storage; collector_lines devices;
    collector_lines processes; collector_lines ports; collector_lines user;
    collector_lines time_locale ].

(** The footer is appended after the [try], and the join is outside it:
    an exception of the join leaves the tool. *)
Definition get_full_system_report (now : string)
    (identity hardware : result (list string)) (display : display_statement)
    (network storage devices processes ports user time_locale
       : result (list string)) : result string :=
  let '(info_sections, raised) :=
    extend_all [Line "# Complete System Report"; Line (generated now)]
      (report_calls identity hardware display network storage devices
         processes ports user time_locale) in
  lines ← join_items 0
             ((match raised with
               | None => info_sections
               | Some e => info_sections ++ [Line (report_error e)]
               end) ++ (Line <$> report_footer));
  Ok (text_response lines).

End Server.

(** * Sample machines

    Concrete ambient states, used to run the collectors. *)

(** A machine where [echo] prints, [lspci] is missing, [false] exits with
    status 1 and [sleep] outlives the time-out. *)
Definition sample_check_output : check_output_t := λ cmd _,
  match cmd with
  | "echo" :: _ => Ok "hello"
  | "lspci" :: _ => Raise (Exn FileNotFoundError "No such file or directory")
  | "false" :: _ => Raise (Exn CalledProcessError "returned non-zero exit status 1")
  | _ => Raise (Exn TimeoutExpired "timed out after 5 seconds")
  end.


(** A Mac with four GPUs: [system_profiler SPDisplaysDataType] lists four
    chipsets. *)
Definition four_gpu_profiler : string :=
  Py.join NL
    [ "Graphics/Displays:";
      "";
      "    AMD Radeon Pro W6800X Duo:";
      "      Chipset Model: AMD Radeon Pro W6800X Duo";
      "      VRAM (Total): 32 GB";
      "    AMD Radeon Pro W6800X Duo:";
      "      Chipset Model: AMD Radeon Pro W6800X Duo";
      "      VRAM (Total): 32 GB";
      "    AMD Radeon Pro W6800X Duo:";
      "      Chipset Model: AMD Radeon Pro W6800X Duo";
      "      VRAM (Total): 32 GB";
      "    AMD Radeon Pro W6800X Duo:";
      "      Chipset Model: AMD Radeon Pro W6800X Duo";
      "      VRAM (Total): 32 GB" ].

Definition four_gpu_mac : check_output_t := λ cmd _,
  match cmd with
  | ["system_profiler"; "SPDisplaysDataType"] => Ok four_gpu_profiler
  | _ => Raise (Exn FileNotFoundError "No such file or directory")
  end.

(** India Standard Time, UTC+05:30, no daylight saving:
    [time.timezone = -19800]. *)
Definition kolkata : time_state :=
  TimeState "2024-03-01 12:00:00" ("IST", "IST") 0 (-19800) (-19800)
            (Ok (Some "en_IN", Some "UTF-8")).

(** Newfoundland Standard Time, UTC-03:30, outside daylight saving:
    [time.timezone = 12600], [time.altzone = 9000]. *)
Definition newfoundland : time_state :=
  TimeState "2024-01-15 09:00:00" ("NST", "NDT") 0 12600 9000
            (Ok (Some "en_CA", Some "UTF-8")).

(** A Mac behind a VPN whose external-IP lookup times out: [lo0], the
    tunnel [utun0] and [en0] are up, [en1] is down; [en0] has a link-local
    and a global IPv6 address. *)
Definition sample_interfaces : list (string * list snicaddr) :=
  [ ("lo0", [Snicaddr "AF_INET" "127.0.0.1" (Some "255.0.0.0")]);
    ("en0", [Snicaddr "AF_INET" "192.168.1.20" (Some "255.255.255.0");
             Snicaddr "AF_INET6" "fe80::1c2d:3e4f" None;
             Snicaddr "AF_INET6" "2001:db8::20" None]);
    ("en1", [Snicaddr "AF_INET" "10.0.0.7" None]);
    ("utun0", [Snicaddr "AF_INET6" "fe80::ce81:b1c" None]) ].

Definition sample_stats : gmap string snicstats :=
  list_to_map [ ("lo0", Snicstats true); ("en0", Snicstats true);
                ("en1", Snicstats false); ("utun0", Snicstats true) ].

Definition sample_network : net_state :=
  NetState "Darwin"
    (λ _ _, Raise (Exn FileNotFoundError "No such file or directory"))
    (Ok sample_interfaces) (Ok sample_stats)
    (Raise (Exn FileNotFoundError "/etc/resolv.conf"))
    (Raise (Exn RequestException "Read timed out. (read timeout=5)")).


(** A machine with one ordinary partition and one mounted image whose
    [disk_usage] reports a total of 0 bytes. *)
Definition zero_total_disk : storage_state :=
  StorageState
    (Ok [ Sdiskpart "/dev/sda1" "/" "ext4" "rw";
          Sdiskpart "/dev/loop3" "/snap/empty" "squashfs" "ro" ])
    (λ path, if bool_decide (path = "/")
             then Ok (Sdiskusage (100 * GiB) (75 * GiB) (25 * GiB))
             else Ok (Sdiskusage 0 0 0)).

(** Outputs of the collectors that are called as they are. *)
Definition sample_identity : list string :=
  ["## 🖥️ System Identity"; "- **Hostname**: build-host"].
Definition sample_now : string := "2024-03-01 12:00:00".

(** Two idle processes, one of them [systemd]. *)
Definition idle_systemd : pinfo :=
  Pinfo 1 "systemd" 0%Q (Some 0%Q) (Some "/usr/lib/systemd/systemd") None.
Definition idle_worker : pinfo :=
  Pinfo 4242 "kworker/0:1" 0%Q (Some 0%Q) None None.

(** An idle process whose name is [Init], capital I. *)
Definition idle_Init : scanned :=
  Scanned 1 (Some "Init") (Some 0%Q) (Some "/sbin/Init") None (Ok 0%Q).

(** * Notions used to state properties *)


(** A string without the character [c]. *)
Fixpoint char_free (c : ascii) (s : string) : Prop :=
  match s with
  | EmptyString => True
  | String a s' => a ≠ c ∧ char_free c s'
  end.

(** [conn] is a listening socket bound to [(ip, port)]. *)
Definition listens_on (conn : sconn) (ip : string) (port : Z) : Prop :=
  status conn = CONN_LISTEN ∧ laddr conn = Some (ip, port).

(** The bind address and port of a row of the listening table. *)
Definition row_addr (info : port_info) : string * Z :=
  (pi_ip info, pi_port info).



(** What holds of the dict [listening_ports] throughout the loop over
    [connections]: its keys are distinct, each is the key of its value's
    address and port, and each value comes from a listening connection of
    the table. *)
Definition ports_inv (connections : list sconn)
    (lp : list (string * port_info)) : Prop :=
  NoDup lp.*1
  ∧ ∀ k info, (k, info) ∈ lp →
      k = port_key (pi_ip info) (pi_port info)
      ∧ ∃ conn, conn ∈ connections ∧ listens_on conn (pi_ip info) (pi_port info).


(** The order of the rows of the process table: [a] before [b] when its
    key is not below [b]'s, CPU first, memory on equal CPU. *)
Definition row_ge (a b : pinfo * Q) : Prop :=
  (cpu_percent b.1 < cpu_percent a.1)%Q
  ∨ (cpu_percent a.1 == cpu_percent b.1 ∧ b.2 <= a.2)%Q.

(** A process with the number that is its memory value, when it is one. *)
Definition with_memory (p : pinfo) : option (pinfo * Q) :=
  (λ memory, (p, memory)) <$> memory_percent p.

(** The processes of a list, in its order, whose memory is a number and
    that pass the display condition. *)
Definition passing (processes : list pinfo) : list (pinfo * Q) :=
  filter (λ row, shown row.1 row.2 = true) (omap with_memory processes).

(** The order of the keys made total, [None] below every number: it is
    [key_lt] wherever [key_lt] has a result. *)
Definition key_lt_total (p1 p2 : pinfo) : bool :=
  if Qeq_bool (cpu_percent p1) (cpu_percent p2) then
    match memory_percent p1, memory_percent p2 with
    | Some m1, Some m2 => Qltb m1 m2
    | None, Some _ => true
    | _, _ => false
    end
  else Qltb (cpu_percent p1) (cpu_percent p2).


(** A machine with a root partition, a temporary file system and a drive
    that cannot be read. *)
Definition healthy_disk : storage_state :=
  StorageState
    (Ok [ Sdiskpart "/dev/sda1" "/" "ext4" "rw";
          Sdiskpart "tmpfs" "/run" "tmpfs" "rw,nosuid";
          Sdiskpart "/dev/sr0" "/media/cdrom" "iso9660" "ro" ])
    (λ path, if bool_decide (path = "/")
             then Ok (Sdiskusage (100 * GiB) (75 * GiB) (25 * GiB))
             else if bool_decide (path = "/run")
             then Ok (Sdiskusage (2 * GiB) 1048576 (2 * GiB - 1048576))
             else Raise (Exn PermissionError "[Errno 13] Permission denied")).

(** The interfaces that get no section: the name starts with [lo] or
    with [utun], or the interface is down (it has no statistics, or
    [isup] is false). *)
Definition hidden (net_stats : gmap string snicstats) (interface : string)
    : bool :=
  Py.startswith "lo" interface || Py.startswith "utun" interface
  || match net_stats !! interface with
     | Some stats => negb (isup stats)
     | None => true
     end.

(** A Linux machine whose resolver is the router's link-local address. *)
Definition link_local_resolver : net_state :=
  NetState "Linux"
    (λ _ _, Raise (Exn FileNotFoundError "No such file or directory"))
    (Ok [("eth0", [ Snicaddr "AF_INET" "192.168.1.20" (Some "255.255.255.0");
                    Snicaddr "AF_INET6" "fe80::1c2d:3e4f" None ])])
    (Ok (list_to_map [("eth0", Snicstats true)]))
    (Ok ["nameserver fe80::1%eth0" +:+ NL])
    (Ok (Response 200 ("203.0.113.9" +:+ NL))).

(** A Linux machine whose [/etc/resolv.conf] has a [nameserver] line
    without an address between two complete ones. *)
Definition linux_resolver : net_state :=
  NetState "Linux"
    (λ _ _, Raise (Exn FileNotFoundError "No such file or directory"))
    (Ok sample_interfaces) (Ok sample_stats)
    (Ok [ "nameserver 1.1.1.1" +:+ NL; "nameserver" +:+ NL;
          "nameserver 8.8.8.8" +:+ NL ])
    (Ok (Response 200 ("203.0.113.9" +:+ NL))).

(** Newfoundland Standard Time, UTC-03:30: [time.timezone = 12600]. *)
Definition newfoundland_offset : Z := 12600.



(** ** Rounding

    [inbetween m l N D]: the location [l] that the float operations carry
    next to a truncated significand [m] describes where the exact quotient
    [N / D] lies in the interval from [m] to [m + 1]. *)
Definition inbetween (m : Z) (l : location) (N D : Z) : Prop :=
  match l with
  | loc_Exact => N = m * D
  | loc_Inexact Lt => m * D < N ∧ 2 * N < (2 * m + 1) * D
  | loc_Inexact Eq => 2 * N = (2 * m + 1) * D
  | loc_Inexact Gt => (2 * m + 1) * D < 2 * N ∧ N < (m + 1) * D
  end.

Definition shr_inv (mrs : shr_record) (N D : Z) : Prop :=
  0 ≤ shr_m mrs ∧ inbetween (shr_m mrs) (loc_of_shr_record mrs) N D.

(** ** The storage report *)

(** A partition that gets a block: it is removable, or its file system is
    not a temporary one. *)
Definition reported (partition : sdiskpart) : bool :=
  truthy (opts partition) && Py.contains "removable" (opts partition)
  || negb (bool_decide (fstype partition ∈ ["tmpfs"; "devtmpfs"])).

(** The two lines with percentages, for percentages given in tenths. *)
Definition free_text (free_gb : spec_float) (f : Z) : string :=
  "- **Free**: " +:+ fmt_1f free_gb +:+ " GB (" +:+ fmt_tenths false f
    +:+ "% free)".

Definition used_text (g : Z) : string :=
  "- **Used**: " +:+ fmt_tenths false g +:+ "%".

(** * More of the source *)

(** ** [get_system_identity] *)

(** The values of [platform.node()], [platform.system()],
    [platform.release()], [platform.machine()] and
    [platform.processor()]. *)
Record platform_info := PlatformInfo {
  pf_node : string;
  pf_system : string;
  pf_release : string;
  pf_machine : string;
  pf_processor : string
}.

(** The loop over the lines of [system_profiler SPHardwareDataType]: the
    first line with ['Serial Number'] gives the serial line, then
    [break]. *)
Fixpoint serial_lines (lines : list string) : list string :=
  match lines with
  | [] => []
  | line :: rest =>
      if Py.contains "Serial Number" line
      then ["- **Serial Number**: " +:+ Py.strip (Py.last (Py.split COLON line))]
      else serial_lines rest
  end.

(** No [try] in this collector: an exception that [safe_subprocess] lets
    through leaves it. *)
Definition get_system_identity (pf : platform_info)
    (check_output : check_output_t) : result (list string) :=
  let info :=
    [ "## 🖥️ System Identity";
      "- **Hostname**: " +:+ pf_node pf;
      "- **Platform**: " +:+ pf_system pf +:+ " " +:+ pf_release pf;
      "- **Architecture**: " +:+ pf_machine pf;
      "- **Processor**: " +:+ pf_processor pf ] in
  if bool_decide (pf_system pf = "Darwin") then
    serial_output ← safe_subprocess check_output
                      ["system_profiler"; "SPHardwareDataType"] default_timeout;
    Ok (info ++ serial_lines (Py.split LF serial_output))
  else Ok info.

(** ** [get_system_summary] and [get_user_environment] of [server.py] *)

Definition summary_keywords : list string :=
  ["CPU Cores:"; "CPU Usage:"; "Total RAM:"; "Available RAM:"; "Boot Time:";
   "Uptime:"].

(** [any(keyword in line for keyword in [...])] *)
Definition summary_line (line : string) : bool :=
  existsb (λ keyword, Py.contains keyword line) summary_keywords.

(** [info_sections] when [get_system_summary] returns.  Both collectors
    are called before anything is added, so an exception of the second
    leaves nothing of the first. *)
Definition summary_sections (now : string)
    (identity hardware : result (list string)) : list string :=
  [ "# System Summary"; Server.generated now ]
  ++ match identity with
     | Raise e => ["⚠️ **Error**: " +:+ exn_str e]
     | Ok identity_info =>
         match hardware with
         | Raise e => ["⚠️ **Error**: " +:+ exn_str e]
         | Ok hardware_info =>
             identity_info
               ++ filter (λ line, summary_line line = true) hardware_info
         end
     end.

Definition get_system_summary (now : string)
    (identity hardware : result (list string)) : string :=
  Server.text_response (summary_sections now identity hardware).

Definition get_user_environment (now : string)
    (user time_locale : result (list string)) : string :=
  Server.tool "# User Environment" now "⚠️ **Environment detection error**: "
    [user; time_locale].

(** A Mac where [system_profiler] cannot be executed. *)
Definition locked_mac : check_output_t := λ _ _,
  Raise (Exn PermissionError "[Errno 13] Permission denied: 'system_profiler'").

Definition sample_platform : platform_info :=
  PlatformInfo "build-host" "Linux" "6.1.0" "x86_64" "x86_64".

(** ** [get_display_info] *)

(** A display as its platform helper returns it: a dict, as its items in
    insertion order. *)
Definition display : Type := list (string * string).

Definition display_field (item : string * string) : string :=
  "- **" +:+ item.1 +:+ "**: " +:+ item.2.

(** The loop [for i, display in enumerate(displays, 1)], [i] being the
    number of the first display of the list. *)
Fixpoint display_blocks (i : nat) (displays : list display) : list string :=
  match displays with
  | [] => []
  | d :: rest =>
      (NL +:+ "### Display " +:+ pretty i)
        :: (display_field <$> d) ++ display_blocks (S i) rest
  end.

(** [helper] is the outcome of the helper of the platform
    ([_get_macos_displays], [_get_linux_displays] or
    [_get_windows_displays]).  The Linux and Windows helpers catch every
    exception; the macOS helper runs a command in its [except] handler, and
    an exception of that call reaches the [except] of this collector. *)
Definition get_display_info (system : string)
    (helper : result (list display)) : list string :=
  "## 🖥️ Display Information" ::
  if bool_decide (system ∈ ["Darwin"; "Linux"; "Windows"]) then
    match helper with
    | Ok [] => ["- **Status**: No displays detected"]
    | Ok displays => display_blocks 1 displays
    | Raise e => ["⚠️ **Display detection error**: " +:+ exn_str e]
    end
  else ["- **Status**: Display detection not supported on this platform"].

(** A machine on which no external command is installed. *)
Definition no_tools : check_output_t := λ _ _,
  Raise (Exn FileNotFoundError "[Errno 2] No such file or directory").

(** ** [get_user_session_info] *)

(** The probes of the user collector: [getpass.getuser()], the
    [pw_gecos] field of [pwd.getpwnam(username)], and the creation time of
    the current process as [strftime] prints it. *)
Record user_state := UserState {
  user_system : string;
  user_check_output : check_output_t;
  getuser : result string;
  pw_gecos : string → result string;
  create_time_text : result string
}.

Definition COMMA : ascii := ","%char.

(** [_get_user_full_name]: everything inside [try ... except Exception]. *)
Definition _get_user_full_name (st : user_state) (username : string) : string :=
  if bool_decide (user_system st = "Darwin") then
    match safe_subprocess (user_check_output st) ["id"; "-F"; username]
            default_timeout with
    | Ok output =>
        if truthy output && negb (bool_decide (Py.strip output = username))
        then Py.strip output else ""
    | Raise _ => ""
    end
  else if bool_decide (user_system st = "Linux") then
    match pw_gecos st username with
    | Ok gecos =>
        if truthy gecos then
          match Py.split COMMA gecos with
          | full_name :: _ => full_name
          | [] => ""
          end
        else ""
    | Raise _ => ""
    end
  else "".

Definition get_user_session_info (st : user_state) : result (list string) :=
  current_user ← getuser st;
  let full_name := _get_user_full_name st current_user in
  Ok ([ NL +:+ "## 👤 User & Session";
        "- **Current User**: " +:+ current_user ]
      ++ (if truthy full_name then ["- **Full Name**: " +:+ full_name] else [])
      ++ (match create_time_text st with
          | Ok login_time => ["- **Session Start**: " +:+ login_time]
          | Raise _ => []
          end)).

(** A Linux account whose GECOS field is the user name's owner followed by
    office details. *)
Definition sample_user_state : user_state :=
  UserState "Linux" no_tools (Ok "ada")
    (λ _, Ok "Ada Lovelace,Room 1,,") (Ok "2024-03-01 08:15:00").

(** ** [get_hardware_info] *)










(** ** [get_connectivity_devices] *)


(** * Properties *)

(** ** Strings *)

Lemma substring_neq (n : nat) (s1 s2 : string) :
  String.substring 0 n s1 ≠ String.substring 0 n s2 → s1 ≠ s2.
Proof. intros Hne ->. by apply Hne. Qed.

Lemma prefix_app (p s : string) : String.prefix p (p +:+ s) = true.
Proof.
  induction p as [|a p IH]; [by destruct s|].
  change (String a p +:+ s) with (String a (p +:+ s)). simpl.
  destruct (ascii_dec a a); [exact IH | done].
Qed.

Lemma prefix_split (p s : string) :
  String.prefix p s = true → ∃ rest, s = p +:+ rest.
Proof.
  revert s. induction p as [|a p IH]; intros s H.
  - by exists s.
  - destruct s as [|b s]; [done|]. cbn in H.
    destruct (ascii_dec a b) as [->|]; [|done].
    destruct (IH _ H) as [rest ->]. by exists rest.
Qed.

Lemma contains_app_r (sub pre s : string) :
  Py.contains sub s = true → Py.contains sub (pre +:+ s) = true.
Proof.
  intros H. induction pre as [|a pre IH]; [done|].
  change (String a pre +:+ s) with (String a (pre +:+ s)).
  simpl. rewrite IH. apply orb_true_r.
Qed.

(** ** The external-command helper *)

(** C3.  Whatever the command and the time-out: when the command succeeds
    [safe_subprocess] returns its output text, and when the binary is
    missing, the exit status is non-zero or the time-out expires it returns
    the empty string; no error reaches the caller in either case. *)
Theorem safe_subprocess_contract
    (check_output : check_output_t) (cmd : list string) (timeout : Z) :
  (∀ out, check_output cmd timeout = Ok out →
     safe_subprocess check_output cmd timeout = Ok out)
  ∧ (∀ e, check_output cmd timeout = Raise e →
       exn_cls e = FileNotFoundError ∨ exn_cls e = CalledProcessError
         ∨ exn_cls e = TimeoutExpired →
       safe_subprocess check_output cmd timeout = Ok "").
Proof.
  unfold safe_subprocess. split.
  - by intros out ->.
  - intros [c msg] -> Hc. cbn in Hc.
    by destruct Hc as [-> | [-> | ->]].
Qed.

Lemma safe_subprocess_contract_witness :
  safe_subprocess sample_check_output ["echo"; "hello"] 5 = Ok "hello"
  ∧ safe_subprocess sample_check_output ["lspci"; "-mm"] 5 = Ok ""
  ∧ safe_subprocess sample_check_output ["false"] 5 = Ok ""
  ∧ safe_subprocess sample_check_output ["sleep"; "60"] 5 = Ok "".
Proof.
  split; [|split; [|split]].
  - apply (proj1 (safe_subprocess_contract sample_check_output ["echo"; "hello"] 5)).
    reflexivity.
  - apply (proj2 (safe_subprocess_contract sample_check_output ["lspci"; "-mm"] 5)
             (Exn FileNotFoundError "No such file or directory")).
    + reflexivity.
    + left. reflexivity.
  - apply (proj2 (safe_subprocess_contract sample_check_output ["false"] 5)
             (Exn CalledProcessError "returned non-zero exit status 1")).
    + reflexivity.
    + right. left. reflexivity.
  - apply (proj2 (safe_subprocess_contract sample_check_output ["sleep"; "60"] 5)
             (Exn TimeoutExpired "timed out after 5 seconds")).
    + reflexivity.
    + right. right. reflexivity.
Defined.

(** ** GPU sub-collector *)

Lemma gpu_entries_cons (line : string) (lines : list string) :
  gpu_entries (line :: lines)
  = ((if is_gpu_entry line then 1 else 0) + gpu_entries lines)%nat.
Proof.
  unfold gpu_entries. rewrite filter_cons.
  destruct (is_gpu_entry line); by case_decide.
Qed.

Lemma gpu_entries_app (l1 l2 : list string) :
  gpu_entries (l1 ++ l2) = (gpu_entries l1 + gpu_entries l2)%nat.
Proof. unfold gpu_entries. by rewrite filter_app, length_app. Qed.

Lemma gpu_entries_le_length (lines : list string) :
  (gpu_entries lines ≤ length lines)%nat.
Proof. apply length_filter. Qed.

Lemma gpu_line_linux_short (gpu : string) :
  (length (gpu_line_linux gpu) ≤ 1)%nat.
Proof.
  unfold gpu_line_linux. case_bool_decide; [|simpl; lia].
  destruct (_ !! _); simpl; lia.
Qed.

Lemma gpu_entries_linux_lines (gpus : list string) :
  (gpu_entries (flat_map gpu_line_linux gpus) ≤ length gpus)%nat.
Proof.
  induction gpus as [|gpu gpus IH]; [done|].
  simpl. rewrite gpu_entries_app.
  pose proof (gpu_entries_le_length (gpu_line_linux gpu)).
  pose proof (gpu_line_linux_short gpu). lia.
Qed.

(** The Linux branch keeps the first three GPUs ([gpus[:3]]). *)
Lemma gpu_linux_capped (check_output : check_output_t) :
  (gpu_entries (_get_gpu_info "Linux" check_output) ≤ 3)%nat.
Proof.
  unfold _get_gpu_info.
  rewrite bool_decide_eq_false_2 by done.
  rewrite bool_decide_eq_true_2 by done.
  assert (gpu_entries [] ≤ 3)%nat as Hnil by (unfold gpu_entries; simpl; lia).
  destruct (safe_subprocess _ _ _) as [out|e]; [|exact Hnil].
  destruct (truthy out); [|exact Hnil].
  destruct (filter _ _) as [|g gpus] eqn:Hg; [exact Hnil|].
  rewrite gpu_entries_cons.
  replace (is_gpu_entry (NL +:+ "### Graphics Cards")) with false by done.
  pose proof (gpu_entries_linux_lines (take 3 (g :: gpus))) as H.
  rewrite length_take in H. lia.
Qed.

(** C8.  The macOS branch of [_get_gpu_info] has no limit: on a Mac whose
    [system_profiler] lists four chipsets the sub-collector emits four GPU
    entries, one more than the three the Linux branch stops at. *)
Theorem gpu_darwin_four_entries :
  gpu_entries (_get_gpu_info "Darwin" four_gpu_mac) = 4%nat.
Proof. vm_compute. reflexivity. Qed.

(** ** Time and locale collector *)

Lemma fmt_02d_two_digits (n : Z) :
  0 ≤ n < 100 →
  fmt_02d n
  = String (pretty_N_char (Z.to_N (n / 10)))
      (String (pretty_N_char (Z.to_N (n mod 10))) "").
Proof.
  intros Hn.
  assert (∃ k : nat, (k < 100)%nat ∧ n = Z.of_nat k) as (k & Hk & ->).
  { exists (Z.to_nat n). lia. }
  do 100 (destruct k as [|k]; [vm_compute; reflexivity|]). lia.
Qed.

(** C9 as the code has it.  The fourth line of the time and locale
    collector is the UTC offset line, of the form UTC, a sign, the hours
    and the minutes field [:00].  The offset is [time.timezone], or
    [time.altzone] when [time.daylight] is not 0, in seconds west of UTC,
    and the hours are [-utc_offset // 3600], printed with two digits when
    below 100.  For a zone at or east of UTC these are the whole hours of
    the offset: the minutes are dropped.  For a zone west of UTC they are
    the whole hours only if the offset has no minutes; otherwise the
    division rounds down and the line shows one hour more. *)
Theorem utc_offset_whole_hours (st : time_state) :
  let utc_offset :=
    if bool_decide (daylight st = 0) then timezone st else altzone st in
  let line := get_time_locale_info st !! 3%nat in
  (utc_offset ≤ 0 →
     line = Some ("- **UTC Offset**: UTC+"
                    +:+ fmt_02d ((- utc_offset) / 3600) +:+ ":00")
     ∧ 3600 * ((- utc_offset) / 3600) ≤ - utc_offset
       < 3600 * ((- utc_offset) / 3600) + 3600)
  ∧ (0 < utc_offset → utc_offset mod 3600 = 0 →
     line = Some ("- **UTC Offset**: UTC-"
                    +:+ fmt_02d (utc_offset / 3600) +:+ ":00"))
  ∧ (0 < utc_offset → utc_offset mod 3600 ≠ 0 →
     line = Some ("- **UTC Offset**: UTC-"
                    +:+ fmt_02d (utc_offset / 3600 + 1) +:+ ":00")
     ∧ 3600 * (utc_offset / 3600) < utc_offset
       < 3600 * (utc_offset / 3600 + 1))
  ∧ (∀ h, 0 ≤ h < 100 →
       fmt_02d h
       = String (pretty_N_char (Z.to_N (h / 10)))
           (String (pretty_N_char (Z.to_N (h mod 10))) "")).
Proof.
  intros utc_offset line.
  assert (line = Some (utc_offset_line utc_offset)) as -> by reflexivity.
  unfold utc_offset_line, offset_hours_of.
  pose proof (Z_div_mod_eq_full utc_offset 3600) as Hd.
  pose proof (Z.mod_pos_bound utc_offset 3600 eq_refl) as Hm.
  pose proof (Z_div_mod_eq_full (- utc_offset) 3600) as Hd'.
  pose proof (Z.mod_pos_bound (- utc_offset) 3600 eq_refl) as Hm'.
  split; [|split; [|split]].
  - intros Hle. rewrite bool_decide_eq_true_2 by lia.
    rewrite Z.abs_eq by lia. split; [done|lia].
  - intros Hpos Hz. rewrite bool_decide_eq_false_2 by lia.
    replace (Z.abs (- utc_offset / 3600)) with (utc_offset / 3600) by lia.
    done.
  - intros Hpos Hnz. rewrite bool_decide_eq_false_2 by lia.
    replace (Z.abs (- utc_offset / 3600)) with (utc_offset / 3600 + 1) by lia.
    split; [done|lia].
  - apply fmt_02d_two_digits.
Qed.

Lemma utc_offset_whole_hours_witness :
  get_time_locale_info kolkata !! 3%nat = Some "- **UTC Offset**: UTC+05:00"
  ∧ 3600 * 5 ≤ 19800 < 3600 * 5 + 3600.
Proof.
  apply (proj1 (utc_offset_whole_hours kolkata)). vm_compute. discriminate.
Defined.

(** C9 as stated fails west of UTC.  For Newfoundland Standard Time,
    three and a half hours behind UTC, the line reads UTC-04:00; with the
    30 minutes dropped it would read UTC-03:00. *)
Lemma utc_offset_minutes_not_dropped :
  daylight newfoundland = 0
  ∧ timezone newfoundland = 3 * 3600 + 30 * 60
  ∧ get_time_locale_info newfoundland !! 3%nat
    = Some "- **UTC Offset**: UTC-04:00"
  ∧ get_time_locale_info newfoundland !! 3%nat
    ≠ Some "- **UTC Offset**: UTC-03:00".
Proof. repeat split. discriminate. Qed.

(** ** Network collector *)

(** Two lines with different first [n] bytes differ: the tails of the
    lines stay untouched. *)
Ltac differ_in H n :=
  exfalso; revert H;
  apply (substring_neq n);
  cbv beta iota delta [String.substring String.append NL LF];
  discriminate.

Lemma get_network_info_ok (st : net_state)
    (net_interfaces : list (string * list snicaddr))
    (net_stats : gmap string snicstats) :
  net_if_addrs st = Ok net_interfaces →
  net_if_stats st = Ok net_stats →
  ∃ gateway_dns : list string,
    get_network_info st
    = Ok ([NL +:+ "## 🌐 Network"]
          ++ flat_map (interface_section net_stats) net_interfaces
          ++ gateway_dns
          ++ [external_ip_line st]
          ++ ["- **VPN Status**: " +:+ _detect_vpn net_interfaces.*1 net_stats])
    ∧ ∀ line, line ∈ gateway_dns →
        (∃ gw, line = NL +:+ "- **Default Gateway**: " +:+ gw)
        ∨ (∃ dns, line = "- **DNS Servers**: " +:+ dns).
Proof.
  intros Ha Hs. unfold get_network_info. rewrite Ha, Hs. cbn [mbind result_bind].
  set (gw := if truthy _ then _ else _).
  set (dns := match _get_dns_servers st with [] => _ | _ => _ end).
  exists (gw ++ dns). split.
  - by rewrite <-(app_assoc gw dns).
  - subst gw dns. intros line [Hl|Hl]%elem_of_app.
    + destruct (truthy _); [|by apply elem_of_nil in Hl].
      apply list_elem_of_singleton in Hl. left. by eexists.
    + destruct (_get_dns_servers st); [by apply elem_of_nil in Hl|].
      apply list_elem_of_singleton in Hl. right. by eexists.
Qed.

Lemma get_network_info_raise (st : net_state) (e : exn) :
  get_network_info st = Raise e →
  net_if_addrs st = Raise e ∨ net_if_stats st = Raise e.
Proof.
  unfold get_network_info.
  destruct (net_if_addrs st); [|intros [= ->]; by left].
  destruct (net_if_stats st); [done|intros [= ->]; by right].
Qed.

(** What [_get_external_ip] returns when the lookup fails. *)
Lemma external_ip_unable (get : result response) :
  match get with
  | Ok resp => status_code resp ≠ 200
  | Raise _ => True
  end →
  _get_external_ip get = UNABLE.
Proof.
  destruct get as [resp|e]; [|done]. intros Hne. unfold _get_external_ip.
  by rewrite bool_decide_eq_false_2.
Qed.

(** C7.  When the external-IP lookup fails, by an exception (time-out,
    connection failure) or a response whose status is not 200, the network
    collector, its interface probes having returned, returns its lines with
    the line [- **External IP**: Unable to determine] among them; and an
    exception leaving the collector is never the lookup's: it is one that
    an interface probe raised. *)
Theorem external_ip_fails_closed (st : net_state) :
  (∀ net_interfaces net_stats,
     net_if_addrs st = Ok net_interfaces →
     net_if_stats st = Ok net_stats →
     match requests_get st with
     | Ok resp => status_code resp ≠ 200
     | Raise _ => True
     end →
     ∃ lines, get_network_info st = Ok lines
              ∧ "- **External IP**: Unable to determine" ∈ lines)
  ∧ (∀ e, get_network_info st = Raise e →
       net_if_addrs st = Raise e ∨ net_if_stats st = Raise e).
Proof.
  split; [|apply get_network_info_raise].
  intros ifs stats Ha Hs Hfail.
  destruct (get_network_info_ok st ifs stats Ha Hs) as (gd & -> & _).
  eexists. split; [reflexivity|].
  unfold external_ip_line. rewrite (external_ip_unable _ Hfail).
  rewrite !elem_of_app, !list_elem_of_singleton. auto 10.
Qed.

Lemma external_ip_fails_closed_witness :
  ∃ lines, get_network_info sample_network = Ok lines
           ∧ "- **External IP**: Unable to determine" ∈ lines.
Proof.
  apply (proj1 (external_ip_fails_closed sample_network)
           sample_interfaces sample_stats); [reflexivity | reflexivity | exact I].
Defined.

Lemma addr_line_cases (addr : snicaddr) (line : string) :
  line ∈ addr_lines addr →
  line = "- **IPv4**: " +:+ address addr
  ∨ (∃ m, line = "  - **Netmask**: " +:+ m)
  ∨ (line = "- **IPv6**: " +:+ address addr
     ∧ Py.startswith "fe80" (address addr) = false).
Proof.
  unfold addr_lines. case_bool_decide.
  - intros [->|Hl]%elem_of_cons; [by left|]. right. left.
    destruct (netmask addr) as [m|]; [|by apply elem_of_nil in Hl].
    destruct (truthy m); [|by apply elem_of_nil in Hl].
    apply list_elem_of_singleton in Hl. by exists m.
  - case_bool_decide; [|by intros ?%elem_of_nil].
    destruct (Py.startswith "fe80" (address addr)) eqn:Hfe;
      [by intros ?%elem_of_nil|].
    intros ->%list_elem_of_singleton. by right; right.
Qed.

Lemma interface_section_cases (net_stats : gmap string snicstats)
    (item : string * list snicaddr) (line : string) :
  line ∈ interface_section net_stats item →
  skipped_name item.1 = false ∧ stats_up (net_stats !! item.1) = true
  ∧ (line = NL +:+ "### " +:+ item.1
     ∨ (∃ s, line = "- **Status**: " +:+ s)
     ∨ ∃ addr, addr ∈ item.2 ∧ line ∈ addr_lines addr).
Proof.
  destruct item as [interface addresses]. unfold interface_section. simpl.
  destruct (skipped_name interface); [by intros ?%elem_of_nil|].
  destruct (net_stats !! interface) as [stats|]; [|by intros ?%elem_of_nil].
  simpl. destruct (isup stats); [|by intros ?%elem_of_nil].
  intros Hl. do 2 (split; [done|]).
  apply elem_of_cons in Hl as [->|Hl]; [by left|].
  apply elem_of_cons in Hl as [->|Hl]; [right; left; by eexists|].
  right. right. apply list_elem_of_In, in_flat_map in Hl as (addr & Ha & Hl).
  exists addr. by rewrite !list_elem_of_In.
Qed.

(** Every line of the network report is of one of these forms. *)
Lemma network_line_cases (st : net_state)
    (net_interfaces : list (string * list snicaddr))
    (net_stats : gmap string snicstats) (lines : list string) (line : string) :
  net_if_addrs st = Ok net_interfaces →
  net_if_stats st = Ok net_stats →
  get_network_info st = Ok lines →
  line ∈ lines →
  line = NL +:+ "## 🌐 Network"
  ∨ (∃ item, item ∈ net_interfaces
             ∧ line ∈ interface_section net_stats item)
  ∨ (∃ gw, line = NL +:+ "- **Default Gateway**: " +:+ gw)
  ∨ (∃ dns, line = "- **DNS Servers**: " +:+ dns)
  ∨ (∃ ip, line = "- **External IP**: " +:+ ip)
  ∨ line = "- **VPN Status**: " +:+ _detect_vpn net_interfaces.*1 net_stats.
Proof.
  intros Ha Hs Hok Hl.
  destruct (get_network_info_ok st _ _ Ha Hs) as (gd & Heq & Hgd).
  rewrite Heq in Hok. injection Hok as <-.
  rewrite elem_of_cons, !elem_of_app, !elem_of_cons in Hl.
  destruct Hl as [->|[Hl|[Hl|[->|[->|Hl]]]]];
    [| | | | |by apply elem_of_nil in Hl].
  - by left.
  - right. left. apply list_elem_of_In, in_flat_map in Hl as (item & Hi & Hl).
    exists item. by rewrite !list_elem_of_In.
  - destruct (Hgd _ Hl) as [[gw ->]|[dns ->]].
    + right. right. left. by eexists.
    + do 3 right. left. by eexists.
  - do 4 right. left. by eexists.
  - by do 5 right.
Qed.

Lemma detect_vpn_active (interfaces : list string)
    (net_stats : gmap string snicstats) :
  _detect_vpn interfaces net_stats = "Active"
  ↔ ∃ interface, interface ∈ interfaces ∧ vpn_like interface = true
                 ∧ stats_up (net_stats !! interface) = true.
Proof.
  induction interfaces as [|i rest IH]; simpl.
  - split; [done|]. by intros (? & ?%elem_of_nil & _).
  - destruct (vpn_like i && stats_up (net_stats !! i)) eqn:Hi.
    + split; [|done]. intros _. apply andb_true_iff in Hi as [??].
      exists i. split; [left|done].
    + rewrite IH. split.
      * intros (j & Hj & ?). exists j. split; [by right|done].
      * intros (j & [->|Hj]%elem_of_cons & Hv & Hu).
        -- by rewrite Hv, Hu in Hi.
        -- by exists j.
Qed.

Lemma utun_is_vpn_like (interface : string) :
  Py.startswith "utun" interface = true → vpn_like interface = true.
Proof.
  intros (rest & ->)%prefix_split.
  change ("utun" +:+ rest)
    with (String "u" (String "t" (String "u" (String "n" rest)))).
  unfold vpn_like, vpn_names. cbn [existsb].
  assert (Py.lower (String "u" (String "t" (String "u" (String "n" rest))))
          = String "u" (String "t" (String "u" (String "n" (Py.lower rest)))))
    as -> by reflexivity.
  by destruct (Py.lower rest).
Qed.

Lemma interface_sections_visible (net_stats : gmap string snicstats)
    (net_interfaces : list (string * list snicaddr)) :
  flat_map (interface_section net_stats) net_interfaces
  = flat_map (λ item, (NL +:+ "### " +:+ item.1)
                        :: "- **Status**: Up" :: flat_map addr_lines item.2)
      (filter (λ item, hidden net_stats item.1 = false) net_interfaces).
Proof.
  induction net_interfaces as [|[interface addresses] rest IH]; [done|].
  rewrite filter_cons. cbn [flat_map fst]. rewrite IH.
  unfold interface_section, skipped_name, hidden.
  destruct (Py.startswith "lo" interface), (Py.startswith "utun" interface);
    cbn [orb]; try (rewrite decide_False by done; done).
  destruct (net_stats !! interface) as [[[]]|]; cbn [isup negb];
    [by rewrite decide_True | by rewrite decide_False..].
Qed.

Lemma hidden_spec (net_stats : gmap string snicstats) (interface : string) :
  hidden net_stats interface = true
  ↔ skipped_name interface = true ∨ stats_up (net_stats !! interface) = false.
Proof.
  unfold hidden, skipped_name, stats_up.
  destruct (Py.startswith "lo" interface), (Py.startswith "utun" interface),
    (net_stats !! interface) as [[[]]|]; simpl; intuition congruence.
Qed.

(** C10 as the code has it.  When the two interface probes return, the
    lines of the network collector are the heading, then one section for
    each interface of [net_if_addrs], in its order, whose name starts
    neither with [lo] nor with [utun] and that is up, then the gateway,
    DNS, external IP and VPN lines.  So no section heading exists for a
    hidden interface, and no IPv6 line shows an address that starts with
    [fe80].  The VPN heuristic runs over every interface of
    [net_if_addrs], hidden or not: the VPN line reads Active exactly when
    some interface with a VPN-like name is up, as any [utun] interface that
    is up makes it. *)
Theorem hidden_interfaces_and_vpn (st : net_state)
    (net_interfaces : list (string * list snicaddr))
    (net_stats : gmap string snicstats) (lines : list string) :
  net_if_addrs st = Ok net_interfaces →
  net_if_stats st = Ok net_stats →
  get_network_info st = Ok lines →
  (∃ rest,
     lines = (NL +:+ "## 🌐 Network")
               :: flat_map (λ item, (NL +:+ "### " +:+ item.1)
                                      :: "- **Status**: Up"
                                      :: flat_map addr_lines item.2)
                    (filter (λ item, hidden net_stats item.1 = false)
                            net_interfaces)
               ++ rest
     ∧ ∀ line, line ∈ rest →
         (∃ gw, line = NL +:+ "- **Default Gateway**: " +:+ gw)
         ∨ (∃ dns, line = "- **DNS Servers**: " +:+ dns)
         ∨ (∃ ip, line = "- **External IP**: " +:+ ip)
         ∨ (∃ vpn, line = "- **VPN Status**: " +:+ vpn))
  ∧ (∀ interface, hidden net_stats interface = true →
       (NL +:+ "### " +:+ interface) ∉ lines)
  ∧ (∀ a, Py.startswith "fe80" a = true → ("- **IPv6**: " +:+ a) ∉ lines)
  ∧ ("- **VPN Status**: Active" ∈ lines
     ↔ ∃ interface, interface ∈ net_interfaces.*1 ∧ vpn_like interface = true
                    ∧ stats_up (net_stats !! interface) = true)
  ∧ (∀ interface,
       interface ∈ net_interfaces.*1 →
       Py.startswith "utun" interface = true →
       stats_up (net_stats !! interface) = true →
       hidden net_stats interface = true
       ∧ "- **VPN Status**: Active" ∈ lines).
Proof.
  intros Ha Hs Hok.
  assert ("- **VPN Status**: Active" ∈ lines
          ↔ _detect_vpn net_interfaces.*1 net_stats = "Active") as Hvpn.
  { split.
    - intros Hl.
      destruct (network_line_cases st _ _ _ _ Ha Hs Hok Hl)
        as [H|[(item & _ & Hi)|[[gw H]|[[dns H]|[[ip H]|H]]]]].
      + differ_in H 1%nat.
      + apply interface_section_cases in Hi
          as (_ & _ & [H|[[s H]|(addr & _ & Hl')]]).
        * differ_in H 1%nat.
        * differ_in H 5%nat.
        * apply addr_line_cases in Hl' as [H|[[m H]|[H _]]];
            [differ_in H 5%nat | differ_in H 1%nat | differ_in H 5%nat].
      + differ_in H 1%nat.
      + differ_in H 5%nat.
      + differ_in H 5%nat.
      + change "- **VPN Status**: Active"
          with ("- **VPN Status**: " +:+ "Active") in H.
        by apply (inj (String.app _)) in H.
    - intros Hd.
      destruct (get_network_info_ok st _ _ Ha Hs) as (gd & Heq & _).
      rewrite Heq in Hok. injection Hok as <-. rewrite Hd.
      rewrite elem_of_cons, !elem_of_app, !elem_of_cons. auto 10. }
  split; [|split; [|split; [|split]]].
  - destruct (get_network_info_ok st _ _ Ha Hs) as (gd & Heq & Hgd).
    rewrite Heq in Hok. injection Hok as <-.
    exists (gd ++ [external_ip_line st]
              ++ ["- **VPN Status**: " +:+ _detect_vpn net_interfaces.*1 net_stats]).
    split; [by rewrite interface_sections_visible|].
    intros line [Hl|[Hl|Hl]%elem_of_app]%elem_of_app.
    + destruct (Hgd line Hl) as [?|?]; auto.
    + apply list_elem_of_singleton in Hl as ->. right. right. left. by eexists.
    + apply list_elem_of_singleton in Hl as ->. do 3 right. by eexists.
  - intros interface Hhidden%hidden_spec Hl.
    destruct (network_line_cases st _ _ _ _ Ha Hs Hok Hl)
      as [H|[(item & _ & Hi)|[[gw H]|[[dns H]|[[ip H]|H]]]]].
    + differ_in H 4%nat.
    + apply interface_section_cases in Hi
        as (Hskip & Hup & [H|[[s H]|(addr & _ & Hl')]]).
      * change (NL +:+ "### " +:+ interface)
          with ((NL +:+ "### ") +:+ interface) in H.
        change (NL +:+ "### " +:+ item.1)
          with ((NL +:+ "### ") +:+ item.1) in H.
        apply (inj (String.app _)) in H. subst interface.
        destruct Hhidden; congruence.
      * differ_in H 1%nat.
      * apply addr_line_cases in Hl' as [H|[[m H]|[H _]]];
          differ_in H 1%nat.
    + differ_in H 2%nat.
    + differ_in H 1%nat.
    + differ_in H 1%nat.
    + differ_in H 1%nat.
  - intros a Hfe Hl.
    destruct (network_line_cases st _ _ _ _ Ha Hs Hok Hl)
      as [H|[(item & _ & Hi)|[[gw H]|[[dns H]|[[ip H]|H]]]]].
    + differ_in H 1%nat.
    + apply interface_section_cases in Hi
        as (_ & _ & [H|[[s H]|(addr & _ & Hl')]]).
      * differ_in H 1%nat.
      * differ_in H 5%nat.
      * apply addr_line_cases in Hl' as [H|[[m H]|[H Hno]]].
        -- differ_in H 9%nat.
        -- differ_in H 1%nat.
        -- apply (inj (String.app _)) in H. congruence.
    + differ_in H 1%nat.
    + differ_in H 5%nat.
    + differ_in H 5%nat.
    + differ_in H 5%nat.
  - by rewrite Hvpn, detect_vpn_active.
  - intros interface Hin Hutun Hup. split.
    + unfold hidden. rewrite Hutun. by rewrite orb_true_r.
    + apply Hvpn, detect_vpn_active. exists interface.
      auto using utun_is_vpn_like.
Qed.

Lemma hidden_interfaces_and_vpn_witness :
  (NL +:+ "### " +:+ "utun0") ∉ [ NL +:+ "## 🌐 Network"; NL +:+ "### en0";
      "- **Status**: Up"; "- **IPv4**: 192.168.1.20";
      "  - **Netmask**: 255.255.255.0"; "- **IPv6**: 2001:db8::20";
      "- **External IP**: Unable to determine"; "- **VPN Status**: Active" ].
Proof.
  apply (proj1 (proj2 (hidden_interfaces_and_vpn sample_network
                         sample_interfaces sample_stats _
                         eq_refl eq_refl eq_refl))).
  reflexivity.
Defined.

(** C10 as stated fails: a link-local address does appear in the output
    when it is the machine's DNS server.  The per-interface IPv6 line of
    [fe80::1c2d:3e4f] is left out, the DNS line shows [fe80::1%eth0]. *)
Lemma link_local_dns_server_shown :
  get_network_info link_local_resolver
  = Ok [ NL +:+ "## 🌐 Network"; NL +:+ "### eth0"; "- **Status**: Up";
         "- **IPv4**: 192.168.1.20"; "  - **Netmask**: 255.255.255.0";
         "- **DNS Servers**: fe80::1%eth0";
         "- **External IP**: 203.0.113.9"; "- **VPN Status**: Not detected" ]
  ∧ Py.startswith "fe80" "fe80::1%eth0" = true.
Proof. split; reflexivity. Qed.

(** ** The report assembler *)

Lemma extend_all_ok {A} (info_sections : list A) (outputs : list (list A)) :
  Server.extend_all info_sections (Ok <$> outputs)
  = (info_sections ++ concat outputs, None).
Proof.
  revert info_sections. induction outputs as [|o outputs IH]; intros info; simpl.
  - by rewrite app_nil_r.
  - by rewrite IH, <-(assoc_L (++)).
Qed.

Lemma extend_all_raise {A} (info_sections : list A)
    (before : list (list A)) (e : exn) (after : list (result (list A))) :
  Server.extend_all info_sections ((Ok <$> before) ++ Raise e :: after)
  = (info_sections ++ concat before, Some e).
Proof.
  revert info_sections. induction before as [|o before IH]; intros info; simpl.
  - by rewrite app_nil_r.
  - by rewrite IH, <-(assoc_L (++)).
Qed.

Lemma join_items_lines (i : nat) (lines : list string) :
  Server.join_items i (Server.Line <$> lines) = Ok lines.
Proof.
  revert i. induction lines as [|l lines IH]; intros i; [done|].
  cbn [fmap list_fmap Server.join_items]. by rewrite IH.
Qed.

Lemma join_items_not_text (i : nat) (lines : list string) (type_name : string)
    (rest : list Server.section_item) :
  Server.join_items i ((Server.Line <$> lines) ++ Server.NotText type_name :: rest)
  = Raise (Exn TypeError ("sequence item " +:+ pretty (i + length lines)%nat
                            +:+ ": expected str instance, " +:+ type_name
                            +:+ " found")).
Proof.
  revert i. induction lines as [|l lines IH]; intros i.
  - simpl. by rewrite Nat.add_0_r.
  - cbn [fmap list_fmap app Server.join_items length]. rewrite IH.
    by replace (S i + length lines)%nat with (i + S (length lines))%nat by lia.
Qed.

(** C1 against the code.  On a machine where all collectors return their
    lines, the full report is not the concatenation of the ten outputs.
    Its third statement calls the name [get_display_info], which holds the
    tool of that name and not the collector.  When that statement raises,
    the report is the title, the time stamp, the identity and hardware
    lines, one error line and the footer: the display section and the
    seven sections after it are missing though every collector returned.
    When it appends the fields of a [ToolResult], the join of the lines
    raises and the tool returns no report at all. *)
Theorem full_report_display_call (now : string)
    (identity hardware network storage devices processes ports user
       time_locale : list string) (display : Server.display_statement) :
  Server.get_full_system_report now (Ok identity) (Ok hardware) display
    (Ok network) (Ok storage) (Ok devices) (Ok processes) (Ok ports)
    (Ok user) (Ok time_locale)
  = match display with
    | Server.DisplayRaises message =>
        Ok (Py.join NL
              ([ "# Complete System Report"; Server.generated now ]
                 ++ identity ++ hardware
                 ++ [ NL +:+ "⚠️ **Error collecting system info**: "
                         +:+ message ]
                 ++ [ NL +:+ "---"; "*Complete system analysis finished*" ]))
    | Server.DisplayExtends first_type _ =>
        Raise (Exn TypeError
                 ("sequence item "
                    +:+ pretty (2 + length identity + length hardware)%nat
                    +:+ ": expected str instance, " +:+ first_type
                    +:+ " found"))
    end.
Proof.
  unfold Server.get_full_system_report, Server.report_calls,
    Server.collector_lines.
  cbn [mbind result_bind Server.extend_all].
  destruct display as [message|first_type more_types];
    cbn [Server.display_items Server.extend_all].
  - change [Server.Line "# Complete System Report";
            Server.Line (Server.generated now)]
      with (Server.Line <$> ["# Complete System Report"; Server.generated now]).
    change [Server.Line (Server.report_error (Exn TypeError message))]
      with (Server.Line <$> [Server.report_error (Exn TypeError message)]).
    rewrite <-!fmap_app, join_items_lines. cbn [mbind result_bind].
    unfold Server.text_response. by rewrite <-!(assoc_L (++)).
  - change [Server.Line "# Complete System Report";
            Server.Line (Server.generated now)]
      with (Server.Line <$> ["# Complete System Report"; Server.generated now]).
    rewrite <-!fmap_app.
    rewrite (fmap_cons Server.NotText), <-!(assoc_L (++)).
    rewrite <-(app_comm_cons (Server.NotText <$> more_types) _
                 (Server.NotText first_type)).
    rewrite join_items_not_text. cbn [mbind result_bind].
    replace (0 + length (["# Complete System Report"; Server.generated now]
                           ++ identity ++ hardware))%nat
      with (2 + length identity + length hardware)%nat; [done|].
    rewrite !length_app. simpl. lia.
Qed.

(** ** Failures inside the collectors *)

Lemma get_network_info_returns (st : net_state) :
  returns (get_network_info st)
  ↔ returns (net_if_addrs st) ∧ returns (net_if_stats st).
Proof.
  split.
  - intros [lines Hok]. unfold get_network_info in Hok.
    destruct (net_if_addrs st) as [ifs|]; [|done].
    destruct (net_if_stats st) as [stats|]; [|done].
    split; by eexists.
  - intros [[ifs Ha] [stats Hs]].
    destruct (get_network_info_ok st ifs stats Ha Hs) as (gd & Heq & _).
    by eexists.
Qed.


(** ** Sorting *)

Section InsertionSort.
Context {A : Type} (lt : A → A → bool).

(** [x] may stand before [y]. *)
Let R (x y : A) : Prop := lt y x = false.

Hypothesis R_trans : ∀ x y z, R x y → R y z → R x z.
Hypothesis lt_asym : ∀ x y, lt x y = true → lt y x = false.

Lemma insert_sorted_perm (x : A) (l : list A) : insert_sorted lt x l ≡ₚ x :: l.
Proof.
  induction l as [|y l IH]; simpl; [done|].
  destruct (lt y x); [|done]. by rewrite IH, Permutation_swap.
Qed.

Lemma py_sorted_perm (l : list A) : py_sorted lt l ≡ₚ l.
Proof.
  induction l as [|x l IH]; simpl; [done|].
  fold (py_sorted lt l). by rewrite insert_sorted_perm, IH.
Qed.

Lemma insert_sorted_sorted (x : A) (l : list A) :
  StronglySorted R l → StronglySorted R (insert_sorted lt x l).
Proof.
  induction l as [|y l IH]; simpl; intros Hs.
  - repeat constructor.
  - apply StronglySorted_cons in Hs as [Hy Hs].
    destruct (lt y x) eqn:Hyx.
    + apply StronglySorted_cons. split; [|by apply IH].
      rewrite insert_sorted_perm. constructor; [|done].
      by apply lt_asym.
    + apply StronglySorted_cons. split.
      * constructor; [done|]. eapply Forall_impl; [exact Hy|].
        intros z Hz. by eapply R_trans.
      * by apply StronglySorted_cons.
Qed.

Lemma py_sorted_sorted (l : list A) : StronglySorted R (py_sorted lt l).
Proof.
  induction l as [|x l IH]; simpl; [constructor|].
  by apply insert_sorted_sorted.
Qed.

End InsertionSort.

Lemma StronglySorted_filter {A} (R : relation A) (P : A → Prop)
    `{∀ x, Decision (P x)} (l : list A) :
  StronglySorted R l → StronglySorted R (filter P l).
Proof.
  induction 1 as [|x l Hs IH Hx]; [constructor|].
  rewrite filter_cons. case_decide; [|done].
  constructor; [done|]. apply Forall_forall.
  intros y [_ Hy]%list_elem_of_filter. revert y Hy. by apply Forall_forall.
Qed.

Lemma StronglySorted_take {A} (R : relation A) (n : nat) (l : list A) :
  StronglySorted R l → StronglySorted R (take n l).
Proof.
  intros Hs. rewrite <-(take_drop n l) in Hs.
  by apply StronglySorted_app_1_l in Hs.
Qed.

Lemma StronglySorted_weaken {A} (R1 R2 : relation A) (l : list A) :
  (∀ x y, R1 x y → R2 x y) → StronglySorted R1 l → StronglySorted R2 l.
Proof.
  intros HR. induction 1 as [|x l Hs IH Hx]; constructor; [done|].
  eapply Forall_impl; [exact Hx|]. auto.
Qed.

(** ** Process collector *)

Lemma Qltb_spec (x y : Q) : Qltb x y = true ↔ (x < y)%Q.
Proof.
  unfold Qltb. rewrite negb_true_iff, <-not_true_iff_false, Qle_bool_iff.
  split; [apply Qnot_le_lt | apply Qlt_not_le].
Qed.

Lemma Qltb_ge (x y : Q) : Qltb x y = false ↔ (y <= x)%Q.
Proof.
  rewrite <-not_true_iff_false, Qltb_spec.
  split; [apply Qnot_lt_le | apply Qle_not_lt].
Qed.

Lemma Qeq_bool_false (x y : Q) : Qeq_bool x y = false ↔ ¬ (x == y)%Q.
Proof. by rewrite <-not_true_iff_false, Qeq_bool_iff. Qed.

Lemma key_lt_total_agrees (p1 p2 : pinfo) (b : bool) :
  key_lt p1 p2 = Some b → key_lt_total p1 p2 = b.
Proof.
  unfold key_lt, key_lt_total. destruct (Qeq_bool _ _); [|by intros [= <-]].
  destruct (memory_percent p1), (memory_percent p2); by intros [= <-].
Qed.

Ltac key_order :=
  unfold key_lt_total;
  repeat match goal with
         | |- context [Qeq_bool ?a ?b] => destruct (Qeq_bool a b) eqn:?
         end;
  repeat match goal with
         | H : Qeq_bool _ _ = true |- _ => apply Qeq_bool_iff in H
         | H : Qeq_bool _ _ = false |- _ => apply Qeq_bool_false in H
         end;
  repeat match goal with
         | |- context [memory_percent ?p] => destruct (memory_percent p)
         end;
  rewrite ?Qltb_ge, ?Qltb_spec; intros;
  try done; try lra;
  try (exfalso; match goal with
                | H : ¬ (_ == _)%Q |- _ => apply H; lra
                end).

Lemma key_lt_total_trans (x y z : pinfo) :
  key_lt_total x y = false → key_lt_total y z = false →
  key_lt_total x z = false.
Proof. key_order. Qed.

Lemma key_lt_total_asym (x y : pinfo) :
  key_lt_total y x = true → key_lt_total x y = false.
Proof. key_order. Qed.

Lemma comparable_spec (processes : list pinfo) :
  comparable processes = true
  ↔ ∀ p1 p2, p1 ∈ processes → p2 ∈ processes → is_Some (key_lt p1 p2).
Proof.
  unfold comparable. rewrite forallb_forall. split.
  - intros H p1 p2 H1%list_elem_of_In H2%list_elem_of_In.
    specialize (H p1 H1). rewrite forallb_forall in H.
    specialize (H p2 H2). by apply bool_decide_eq_true in H.
  - intros H p1 H1%list_elem_of_In. apply forallb_forall.
    intros p2 H2%list_elem_of_In. apply bool_decide_eq_true. by apply H.
Qed.


Lemma insert_sorted_ext {A} (lt1 lt2 : A → A → bool) (x : A) (l : list A) :
  (∀ y, y ∈ l → lt1 y x = lt2 y x) →
  insert_sorted lt1 x l = insert_sorted lt2 x l.
Proof.
  induction l as [|y l IH]; intros H; [done|]. simpl.
  rewrite <-(H y) by left. destruct (lt1 y x); [|done].
  f_equal. apply IH. intros z Hz. apply H. by right.
Qed.

(** The sort reads its order on the elements of the list only. *)
Lemma py_sorted_ext {A} (lt1 lt2 : A → A → bool) (l : list A) :
  (∀ x y, x ∈ l → y ∈ l → lt1 x y = lt2 x y) →
  py_sorted lt1 l = py_sorted lt2 l.
Proof.
  induction l as [|x l IH]; intros H; [done|]. simpl.
  fold (py_sorted lt1 l) (py_sorted lt2 l).
  rewrite IH by (intros; apply H; by right).
  apply insert_sorted_ext. intros y Hy. rewrite py_sorted_perm in Hy.
  apply H; [by right | by left].
Qed.

Lemma sort_processes_ok (none_first : bool) (processes sorted : list pinfo) :
  sort_processes none_first processes = Ok sorted →
  comparable processes = true
  ∧ sorted = py_sorted_reverse key_lt_total processes
  ∧ sorted ≡ₚ processes
  ∧ StronglySorted (λ x y, key_lt_total x y = false) sorted.
Proof.
  unfold sort_processes. destruct (comparable processes) eqn:Hc; [|done].
  intros [= <-]. split; [done|].
  assert (py_sorted_reverse (λ p1 p2, default false (key_lt p1 p2)) processes
          = py_sorted_reverse key_lt_total processes) as ->.
  { unfold py_sorted_reverse. apply py_sorted_ext. intros x y Hx Hy.
    destruct (proj1 (comparable_spec processes) Hc y x Hy Hx) as [b Hb].
    rewrite Hb. simpl. symmetry. by apply key_lt_total_agrees. }
  split; [done|]. split; [apply py_sorted_perm|].
  apply (py_sorted_sorted (λ a b, key_lt_total b a)).
  - intros x y z. apply key_lt_total_trans.
  - intros x y. apply key_lt_total_asym.
Qed.



Lemma sort_processes_numbers (none_first : bool) (processes : list pinfo) :
  Forall (λ p, is_Some (memory_percent p)) processes →
  ∃ sorted, sort_processes none_first processes = Ok sorted.
Proof.
  intros Hall. unfold sort_processes.
  rewrite (proj2 (comparable_spec processes)); [by eexists|].
  rewrite Forall_forall in Hall.
  intros p1 p2 [m1 H1]%Hall [m2 H2]%Hall. unfold key_lt. rewrite H1, H2.
  by destruct (Qeq_bool _ _).
Qed.

Lemma passing_cons (p : pinfo) (processes : list pinfo) :
  passing (p :: processes)
  = match memory_percent p with
    | Some memory =>
        if shown p memory then (p, memory) :: passing processes
        else passing processes
    | None => passing processes
    end.
Proof.
  unfold passing, with_memory. cbn [omap list_omap].
  destruct (memory_percent p) as [memory|]; [|done]. cbn [fmap option_fmap option_map].
  rewrite filter_cons. destruct (shown p memory) eqn:Hs; cbn [fst snd].
  - by rewrite decide_True.
  - by rewrite decide_False by (rewrite Hs; done).
Qed.

(** The display loop emits the passing processes in their order, up to 20
    rows in all, and stops early only at a process whose memory is
    [None]. *)
Lemma display_loop_spec (count : nat) (processes : list pinfo) :
  (display_loop count processes).1
    `prefix_of` take (20 - count) (passing processes)
  ∧ ((display_loop count processes).2 = None →
     (display_loop count processes).1 = take (20 - count) (passing processes))
  ∧ ∀ e, (display_loop count processes).2 = Some e →
      (length (display_loop count processes).1 < 20 - count)%nat
      ∧ ∃ p, p ∈ processes ∧ memory_percent p = None ∧ e = memory_error p.
Proof.
  revert count. induction processes as [|p l IH]; intros count.
  - cbn [display_loop fst snd]. unfold passing. cbn [omap list_omap].
    rewrite filter_nil, take_nil. done.
  - cbn [display_loop]. case_bool_decide as Hc.
    { replace (20 - count)%nat with 0%nat by lia. done. }
    rewrite passing_cons. destruct (memory_percent p) as [memory|] eqn:Hm.
    + destruct (shown p memory).
      * specialize (IH (S count)).
        destruct (display_loop (S count) l) as [rows raised].
        cbn [fst snd] in *.
        replace (20 - count)%nat with (S (20 - S count)) by lia.
        cbn [take]. destruct IH as (Hpre & Hnone & Hsome).
        split; [by apply prefix_cons|]. split.
        -- intros Hr. by rewrite Hnone.
        -- intros e He. destruct (Hsome e He) as (Hlen & q & Hq & ?).
           split; [simpl; lia|]. exists q. split; [by right|done].
      * destruct (IH count) as (Hpre & Hnone & Hsome).
        split; [done|]. split; [done|].
        intros e He. destruct (Hsome e He) as (Hlen & q & Hq & ?).
        split; [done|]. exists q. split; [by right|done].
    + cbn [fst snd]. split; [apply prefix_nil|]. split; [done|].
      intros e [= <-]. split; [simpl; lia|]. exists p. split; [by left|done].
Qed.

Lemma passing_spec (processes : list pinfo) (row : pinfo * Q) :
  row ∈ passing processes
  ↔ row.1 ∈ processes ∧ memory_percent row.1 = Some row.2
    ∧ shown row.1 row.2 = true.
Proof.
  unfold passing. rewrite list_elem_of_filter, list_elem_of_omap.
  unfold with_memory. destruct row as [p memory]. cbn [fst snd]. split.
  - intros (Hs & q & Hq & Hw). destruct (memory_percent q) eqn:Hm; [|done].
    injection Hw as -> ->. done.
  - intros (Hp & Hm & Hs). split; [done|]. exists p. by rewrite Hm.
Qed.

Lemma shown_spec (p : pinfo) (memory : Q) :
  shown p memory = true
  ↔ (float_0_1 < cpu_percent p)%Q ∨ (float_0_5 < memory)%Q
    ∨ Py.lower (display_name p) ∈ important_names.
Proof.
  unfold shown. rewrite !orb_true_iff, !Qltb_spec, bool_decide_eq_true. tauto.
Qed.

Lemma StronglySorted_omap {A B} (R : relation A) (S : relation B)
    (f : A → option B) (l : list A) :
  (∀ x y x' y', f x = Some x' → f y = Some y' → R x y → S x' y') →
  StronglySorted R l → StronglySorted S (omap f l).
Proof.
  intros HRS. induction 1 as [|x l Hs IH Hx]; [constructor|].
  cbn [omap list_omap]. destruct (f x) as [x'|] eqn:Hfx; [|done].
  constructor; [done|]. apply Forall_forall.
  intros y' (y & Hy & Hfy)%list_elem_of_omap.
  rewrite Forall_forall in Hx. eauto.
Qed.

Lemma with_memory_sorted (sorted : list pinfo) :
  StronglySorted (λ x y, key_lt_total x y = false) sorted →
  StronglySorted row_ge (omap with_memory sorted).
Proof.
  intros Hs. eapply StronglySorted_omap; [|exact Hs].
  intros x y [x1 mx] [y1 my]. unfold with_memory.
  destruct (memory_percent x) as [m1|] eqn:Hmx; [|done].
  destruct (memory_percent y) as [m2|] eqn:Hmy; [|done].
  intros [= <- <-] [= <- <-]. unfold row_ge, key_lt_total. cbn [fst snd].
  rewrite Hmx, Hmy. destruct (Qeq_bool _ _) eqn:He.
  - apply Qeq_bool_iff in He. rewrite Qltb_ge. by right.
  - apply Qeq_bool_false in He. rewrite Qltb_ge. intros Hle. left.
    destruct (Qlt_le_dec (cpu_percent y) (cpu_percent x)); [done|].
    exfalso. apply He. lra.
Qed.

Lemma passing_sorted (sorted : list pinfo) :
  StronglySorted (λ x y, key_lt_total x y = false) sorted →
  StronglySorted row_ge (passing sorted).
Proof.
  intros Hs. unfold passing. by apply StronglySorted_filter, with_memory_sorted.
Qed.

Lemma StronglySorted_prefix {A} (R : relation A) (l1 l2 : list A) :
  l1 `prefix_of` l2 → StronglySorted R l2 → StronglySorted R l1.
Proof. intros [k ->]. apply StronglySorted_app_1_l. Qed.

Lemma get_running_processes_table (none_first : bool) (procs : list scanned)
    (processes sorted : list pinfo) :
  scan_processes procs = Ok processes →
  sort_processes none_first processes = Ok sorted →
  get_running_processes none_first procs
  = "## ⚙️ Running Processes"
      :: process_table_header
      ++ ((λ row, process_row row.1 row.2) <$> (display_loop 0 sorted).1)
      ++ [ match (display_loop 0 sorted).2 with
           | None => process_summary sorted
           | Some e => process_error e
           end ].
Proof.
  intros Hscan Hsort. unfold get_running_processes. rewrite Hscan.
  cbn [mbind result_bind]. rewrite Hsort.
  by destruct (display_loop 0 sorted).
Qed.

(** Whenever scan and sort succeed, the collector's output is its heading,
    the three header lines, one line per row and a last line.  The rows
    are at most 20, in descending order of CPU and, on equal CPU, of
    memory; they are the first passing processes of the sorted list, all of
    them up to 20 unless the loop met a process whose memory is [None];
    every row is a scanned process whose memory is a number and whose CPU
    is above 0.1, whose memory is above 0.5, or whose name (its first 20
    characters, in lower case) is one of the four system names. *)
Theorem process_table_rows (none_first : bool) (procs : list scanned)
    (processes sorted : list pinfo) :
  scan_processes procs = Ok processes →
  sort_processes none_first processes = Ok sorted →
  let rows := (display_loop 0 sorted).1 in
  let raised := (display_loop 0 sorted).2 in
  get_running_processes none_first procs
  = "## ⚙️ Running Processes"
      :: process_table_header
      ++ ((λ row, process_row row.1 row.2) <$> rows)
      ++ [ match raised with
           | None => process_summary sorted
           | Some e => process_error e
           end ]
  ∧ (length rows ≤ 20)%nat
  ∧ StronglySorted row_ge rows
  ∧ rows `prefix_of` take 20 (passing sorted)
  ∧ (raised = None → rows = take 20 (passing sorted))
  ∧ ∀ row, row ∈ rows →
      row.1 ∈ processes ∧ memory_percent row.1 = Some row.2
      ∧ ((float_0_1 < cpu_percent row.1)%Q ∨ (float_0_5 < row.2)%Q
         ∨ Py.lower (display_name row.1) ∈ important_names).
Proof.
  intros Hscan Hsort rows raised. subst rows raised.
  destruct (sort_processes_ok _ _ _ Hsort) as (_ & _ & Hperm & Hsorted).
  destruct (display_loop_spec 0 sorted) as (Hpre & Hnone & _).
  change (20 - 0)%nat with 20%nat in *.
  split; [by apply (get_running_processes_table _ _ processes)|].
  split; [|split; [|split; [done|split; [done|]]]].
  - apply prefix_length in Hpre. rewrite length_take in Hpre. lia.
  - eapply StronglySorted_prefix; [exact Hpre|].
    by apply StronglySorted_take, passing_sorted.
  - intros row Hrow. destruct Hpre as [k Hk].
    assert (row ∈ passing sorted) as Hin.
    { eapply subseteq_take. rewrite Hk. apply elem_of_app. by left. }
    apply passing_spec in Hin as (Hp & Hm & Hs). rewrite Hperm in Hp.
    split; [done|]. split; [done|]. by apply shown_spec.
Qed.

Lemma process_table_rows_witness :
  (length (display_loop 0 [idle_worker; idle_systemd]).1 ≤ 20)%nat.
Proof.
  apply (process_table_rows false
           [ Scanned 4242 (Some "kworker/0:1") (Some 0%Q) None None (Ok 0%Q);
             Scanned 1 (Some "systemd") (Some 0%Q)
                     (Some "/usr/lib/systemd/systemd") None (Ok 0%Q);
             Scanned 2 (Some "") (Some 0%Q) None None (Ok 0%Q) ]
           [idle_worker; idle_systemd] [idle_worker; idle_systemd]).
  - reflexivity.
  - vm_compute. reflexivity.
Defined.

(** When every scanned process has a number as its memory, the sort
    succeeds, the display loop raises nothing, and no process that passes
    the display condition is dropped unless more than 20 pass it: the
    number of rows is the smaller of 20 and the number of passing
    processes, and when at most 20 pass, the rows are those processes,
    reordered. *)
Theorem process_table_complete (none_first : bool) (processes : list pinfo) :
  Forall (λ p, is_Some (memory_percent p)) processes →
  ∃ sorted,
    sort_processes none_first processes = Ok sorted
    ∧ sorted ≡ₚ processes
    ∧ (display_loop 0 sorted).2 = None
    ∧ length (display_loop 0 sorted).1
      = (20 `min` length (passing processes))%nat
    ∧ ((length (passing processes) ≤ 20)%nat →
       (display_loop 0 sorted).1 ≡ₚ passing processes).
Proof.
  intros Hall. destruct (sort_processes_numbers none_first _ Hall) as [sorted Hs].
  exists sorted. split; [done|].
  destruct (sort_processes_ok _ _ _ Hs) as (_ & _ & Hperm & _).
  split; [done|].
  destruct (display_loop_spec 0 sorted) as (_ & Hnone & Hsome).
  change (20 - 0)%nat with 20%nat in *.
  assert ((display_loop 0 sorted).2 = None) as Hr.
  { destruct (display_loop 0 sorted).2 as [e|] eqn:He; [|done].
    destruct (Hsome e eq_refl) as (_ & p & Hp & Hm & _).
    rewrite Hperm in Hp. rewrite Forall_forall in Hall.
    destruct (Hall p Hp) as [m Hm']. congruence. }
  split; [done|]. rewrite (Hnone Hr).
  assert (passing sorted ≡ₚ passing processes) as Hpass.
  { unfold passing. by rewrite Hperm. }
  split.
  - rewrite length_take, Hpass. lia.
  - intros Hle. rewrite take_ge; [done|]. by rewrite Hpass.
Qed.

Lemma process_table_complete_witness :
  ∃ sorted,
    sort_processes false [idle_worker; idle_systemd] = Ok sorted
    ∧ sorted ≡ₚ [idle_worker; idle_systemd]
    ∧ (display_loop 0 sorted).2 = None
    ∧ length (display_loop 0 sorted).1
      = (20 `min` length (passing [idle_worker; idle_systemd]))%nat
    ∧ ((length (passing [idle_worker; idle_systemd]) ≤ 20)%nat →
       (display_loop 0 sorted).1 ≡ₚ passing [idle_worker; idle_systemd]).
Proof.
  apply (process_table_complete false [idle_worker; idle_systemd]).
  repeat constructor; by eexists.
Defined.

Lemma opt_truthy_Some (o : option string) (n : string) :
  opt_truthy o = Some n ↔ o = Some n ∧ n ≠ "".
Proof.
  unfold opt_truthy, truthy. destruct o as [n'|]; [|split; [done|by intros [? _]]].
  case_bool_decide as He; simpl; split.
  - done.
  - by intros [[= ->] Hne].
  - by intros [= ->].
  - by intros [[= ->] _].
Qed.

Lemma scan_processes_ok (procs : list scanned) (processes : list pinfo) :
  scan_processes procs = Ok processes →
  (length processes ≤ length procs)%nat
  ∧ ∀ p, p ∈ processes →
      name p ≠ ""
      ∧ ∃ s, s ∈ procs ∧ s_name s = Some (name p) ∧ s_pid s = pid p
             ∧ s_cpu_percent s = Ok (cpu_percent p).
Proof.
  revert processes.
  induction procs as [|s procs IH]; intros processes; cbn [scan_processes].
  - intros [= <-]. split; [done|]. by intros p ?%elem_of_nil.
  - assert (∀ ps, scan_processes procs = Ok ps →
              (length ps ≤ S (length procs))%nat
              ∧ ∀ p, p ∈ ps →
                  name p ≠ ""
                  ∧ ∃ s', s' ∈ s :: procs ∧ s_name s' = Some (name p)
                          ∧ s_pid s' = pid p
                          ∧ s_cpu_percent s' = Ok (cpu_percent p)) as Hrest.
    { intros ps Hps. destruct (IH _ Hps) as [Hlen Hin]. split; [lia|].
      intros p Hp. destruct (Hin p Hp) as (Hn & s' & Hs' & ?).
      split; [done|]. exists s'. split; [by right|done]. }
    destruct (opt_truthy (s_name s)) as [n|] eqn:Hname; [|apply Hrest].
    destruct (s_cpu_percent s) as [cpu|e] eqn:Hcpu.
    + destruct (scan_processes procs) as [ps|] eqn:Hps; [|done].
      intros [= <-]. destruct (Hrest ps eq_refl) as [Hlen Hin].
      split; [simpl; destruct (IH _ eq_refl); lia|].
      intros p [->|Hp]%elem_of_cons; [|by apply Hin]. simpl.
      apply opt_truthy_Some in Hname as [Hname Hne].
      split; [done|]. exists s. split; [by left|done].
    + destruct (caught_by _ e); [apply Hrest|done].
Qed.

Lemma scan_processes_raise (procs : list scanned) (e : exn) :
  scan_processes procs = Raise e →
  caught_by [NoSuchProcess; AccessDenied; ZombieProcess] e = false
  ∧ ∃ s, s ∈ procs ∧ s_cpu_percent s = Raise e.
Proof.
  induction procs as [|s procs IH]; cbn [scan_processes]; [done|].
  assert (scan_processes procs = Raise e →
          caught_by [NoSuchProcess; AccessDenied; ZombieProcess] e = false
          ∧ ∃ s', s' ∈ s :: procs ∧ s_cpu_percent s' = Raise e) as Hrest.
  { intros (Hc & s' & Hs' & ?)%IH. split; [done|]. exists s'.
    split; [by right|done]. }
  destruct (opt_truthy (s_name s)); [|done].
  destruct (s_cpu_percent s) as [cpu|e'] eqn:Hcpu.
  - destruct (scan_processes procs); [done|]. intros [= ->]. by apply Hrest.
  - destruct (caught_by _ e') eqn:Hc; [done|]. intros [= ->].
    split; [done|]. exists s. split; [by left|done].
Qed.

(** The scan keeps only processes with a non-empty name whose CPU probe
    returned, at most one entry per scanned process.  It is abandoned only
    by a CPU probe raising an exception other than [NoSuchProcess],
    [AccessDenied] and [ZombieProcess]; the collector then returns its
    heading and one error line, and no table, whatever was scanned before. *)
Theorem process_scan_outcomes (none_first : bool) (procs : list scanned) :
  (∀ processes, scan_processes procs = Ok processes →
     (length processes ≤ length procs)%nat
     ∧ ∀ p, p ∈ processes →
         name p ≠ ""
         ∧ ∃ s, s ∈ procs ∧ s_name s = Some (name p) ∧ s_pid s = pid p
                ∧ s_cpu_percent s = Ok (cpu_percent p))
  ∧ (∀ e, scan_processes procs = Raise e →
       caught_by [NoSuchProcess; AccessDenied; ZombieProcess] e = false
       ∧ (∃ s, s ∈ procs ∧ s_cpu_percent s = Raise e)
       ∧ length (get_running_processes none_first procs) = 2%nat).
Proof.
  split; [apply scan_processes_ok|].
  intros e He. destruct (scan_processes_raise _ _ He) as [Hc Hs].
  split; [done|]. split; [done|].
  unfold get_running_processes. by rewrite He.
Qed.

Lemma process_scan_outcomes_witness :
  (length [Pinfo 1 "Init" 0%Q (Some 0%Q) (Some "/sbin/Init") None] ≤ 1)%nat.
Proof.
  apply (proj1 (process_scan_outcomes false [idle_Init])
           [Pinfo 1 "Init" 0%Q (Some 0%Q) (Some "/sbin/Init") None] eq_refl).
Defined.

Lemma len_append (s1 s2 : string) :
  Py.len (s1 +:+ s2) = (Py.len s1 + Py.len s2)%nat.
Proof.
  induction s1 as [|a s1 IH]; [done|].
  change (String a s1 +:+ s2) with (String a (s1 +:+ s2)). cbn [Py.len].
  rewrite IH. by destruct (Py.is_cont a).
Qed.

Lemma len_take_le (n : nat) (s : string) : (Py.len (Py.take n s) ≤ n)%nat.
Proof.
  revert n. induction s as [|a s IH]; intros n; cbn [Py.take Py.len]; [lia|].
  destruct (Py.is_cont a) eqn:Ha.
  - cbn [Py.len]. rewrite Ha. apply IH.
  - destruct n as [|n]; cbn [Py.len]; [lia|]. rewrite Ha.
    specialize (IH n). lia.
Qed.

Lemma len_drop (k : nat) (s : string) :
  Py.len (Py.drop k s) = (Py.len s - k)%nat.
Proof.
  revert k. induction s as [|a s IH]; intros k; cbn [Py.drop Py.len]; [done|].
  destruct (Py.is_cont a) eqn:Ha; [apply IH|].
  destruct k as [|k]; [cbn [Py.len]; by rewrite Ha|]. rewrite IH. lia.
Qed.

(** What the table shows of a process is bounded, in characters (code
    points): the name column has at most 20; the path column is never
    empty and has at most 40, a longer path being cut to an ellipsis and
    its last 37 characters, 40 in all; a process without executable and
    command line shows N/A. *)
Theorem process_row_widths (proc : pinfo) :
  (Py.len (display_name proc) ≤ 20)%nat
  ∧ exe_path_of proc ≠ ""
  ∧ (Py.len (exe_path_of proc) ≤ 40)%nat
  ∧ (∀ path, opt_truthy (exe proc) = Some path → (40 < Py.len path)%nat →
       exe_path_of proc = "..." +:+ Py.take_last 37 path
       ∧ Py.len (exe_path_of proc) = 40%nat)
  ∧ (opt_truthy (exe proc) = None →
     (cmdline proc = None ∨ cmdline proc = Some []) →
     exe_path_of proc = "N/A").
Proof.
  split; [apply len_take_le|]. unfold exe_path_of.
  set (exe_path := match opt_truthy (exe proc) with
                   | Some path => path
                   | None => _
                   end).
  assert (Py.len ("..." +:+ Py.take_last 37 exe_path)
            = (3 + (Py.len exe_path - (Py.len exe_path - 37)))%nat) as Hcut.
  { rewrite len_append. unfold Py.take_last. by rewrite len_drop. }
  split; [|split; [|split]].
  - unfold truthy. case_bool_decide as He; simpl; [done|].
    case_bool_decide; [done|]. by intros ->.
  - unfold truthy. case_bool_decide as He; simpl; [lia|].
    case_bool_decide as Hlen; [|lia]. rewrite Hcut. lia.
  - intros path Hexe Hlen. subst exe_path. rewrite Hexe in *.
    apply opt_truthy_Some in Hexe as [_ Hne].
    unfold truthy. rewrite bool_decide_eq_false_2 by done. simpl.
    rewrite bool_decide_eq_true_2 by done. split; [done|]. rewrite Hcut. lia.
  - intros Hexe Hcmd. subst exe_path. rewrite Hexe.
    by destruct Hcmd as [-> | ->].
Qed.

Lemma process_row_widths_witness : exe_path_of idle_worker = "N/A".
Proof.
  apply (process_row_widths idle_worker); [reflexivity | by left].
Defined.






(** ** Port collector *)







Section PortScan.
Context (st : ports_state) (connections : list sconn).

Lemma add_connection_inv (acc : port_tables) (conn : sconn) :
  conn ∈ connections → ports_inv connections acc.1 →
  ports_inv connections (add_connection st acc conn).1.
Proof.
  intros Hconn Hinv. destruct acc as [lp est]. unfold add_connection.
  destruct (laddr conn) as [[ip port]|] eqn:Hl; [|done].
  case_bool_decide as Hlisten.
  - unfold has_key. case_bool_decide as Hkey; [done|].
    destruct (match pid_truthy (conn_pid conn) with
              | Some p => resolve_process st p
              | None => Ok ("Unknown", "N/A")
              end) as [[proc_name proc_exe]|e]; [|done].
    simpl. destruct Hinv as [Hnd Hall]. split.
    + rewrite fmap_app. apply NoDup_app. split; [done|]. split.
      * intros k Hk [->|[]%elem_of_nil]%elem_of_cons. done.
      * apply NoDup_singleton.
    + intros k info [Hin|Hin]%elem_of_app; [by apply Hall|].
      apply list_elem_of_singleton in Hin. injection Hin as -> ->. simpl.
      split; [done|]. by exists conn.
  - case_bool_decide; [|done]. by destruct (raddr conn) as [[??]|].
Qed.

Lemma foldl_connections_inv (conns : list sconn) (acc : port_tables) :
  conns ⊆ connections → ports_inv connections acc.1 →
  ports_inv connections (foldl (add_connection st) acc conns).1.
Proof.
  revert acc. induction conns as [|c conns IH]; intros acc Hsub Hinv; [done|].
  simpl. apply IH.
  - intros x Hx. apply Hsub. by right.
  - apply add_connection_inv; [|done]. apply Hsub. by left.
Qed.

Lemma scan_connections_inv :
  ports_inv connections (scan_connections st connections).1.
Proof.
  apply foldl_connections_inv; [done|]. split; [constructor|].
  by intros k info ?%elem_of_nil.
Qed.

End PortScan.

Lemma sorted_ports_perm (lp : list (string * port_info)) :
  sorted_ports lp ≡ₚ lp.*2.
Proof. apply py_sorted_perm. Qed.

Lemma ports_inv_keys (connections : list sconn)
    (lp : list (string * port_info)) :
  ports_inv connections lp →
  lp.*1 = (λ a : string * Z, port_key a.1 a.2) <$> (row_addr <$> lp.*2).
Proof.
  intros [_ Hall]. induction lp as [|[k info] lp IH]; [done|].
  simpl. f_equal.
  - by apply (Hall k info); left.
  - apply IH. intros k' info' Hin. apply Hall. by right.
Qed.

(** The listening table has one row per bind address and port, however
    many sockets share them: the rows have pairwise different (address,
    port) pairs, each is the address and port of a listening socket of the
    table, and they are in ascending order of port. *)
Theorem listening_rows_distinct_sorted (st : ports_state)
    (connections : list sconn) :
  let rows := sorted_ports (scan_connections st connections).1 in
  NoDup (row_addr <$> rows)
  ∧ StronglySorted (λ a b, pi_port a ≤ pi_port b) rows
  ∧ ∀ row, row ∈ rows →
      ∃ conn, conn ∈ connections ∧ listens_on conn (pi_ip row) (pi_port row).
Proof.
  intros rows. subst rows.
  pose proof (scan_connections_inv st connections) as Hinv.
  set (lp := (scan_connections st connections).1) in *.
  split; [|split].
  - rewrite sorted_ports_perm.
    eapply (NoDup_fmap_1 (λ a : string * Z, port_key a.1 a.2)).
    rewrite <-(ports_inv_keys connections) by done. apply Hinv.
  - eapply (StronglySorted_weaken (λ x y, (pi_port y <? pi_port x) = false)).
    { intros x y. rewrite Z.ltb_ge. done. }
    apply (py_sorted_sorted (λ a b, pi_port a <? pi_port b)).
    + intros x y z. rewrite !Z.ltb_ge. lia.
    + intros x y. rewrite Z.ltb_lt, Z.ltb_ge. lia.
  - intros row Hrow. rewrite sorted_ports_perm in Hrow.
    apply list_elem_of_fmap in Hrow as ([k info] & -> & Hin).
    by apply Hinv in Hin as [_ ?].
Qed.










Lemma count_host_keys (host : string) (hosts : list (string * Z)) (h : string) :
  h ∈ (count_host host hosts).*1 ↔ h = host ∨ h ∈ hosts.*1.
Proof.
  induction hosts as [|[h' n] hosts IH]; simpl.
  - rewrite list_elem_of_singleton, elem_of_nil. tauto.
  - case_bool_decide as He; simpl.
    + subst h'. rewrite elem_of_cons. tauto.
    + rewrite !elem_of_cons, IH. tauto.
Qed.

Lemma count_host_NoDup (host : string) (hosts : list (string * Z)) :
  NoDup hosts.*1 → NoDup (count_host host hosts).*1.
Proof.
  induction hosts as [|[h' n] hosts IH]; simpl.
  - intros _. apply NoDup_singleton.
  - intros [Hnotin Hnd]%NoDup_cons. case_bool_decide as He; simpl.
    + by apply NoDup_cons.
    + apply NoDup_cons. split; [|by apply IH].
      rewrite count_host_keys. intros [->|?]; done.
Qed.

Lemma count_host_sum (host : string) (hosts : list (string * Z)) :
  foldr Z.add 0 (count_host host hosts).*2 = foldr Z.add 0 hosts.*2 + 1.
Proof.
  induction hosts as [|[h' n] hosts IH]; [done|].
  cbn [count_host]. case_bool_decide; rewrite !fmap_cons; cbn [foldr snd];
    rewrite ?IH; lia.
Qed.

Lemma count_host_positive (host : string) (hosts : list (string * Z)) :
  Forall (λ n, 1 ≤ n) hosts.*2 → Forall (λ n, 1 ≤ n) (count_host host hosts).*2.
Proof.
  induction hosts as [|[h' n] hosts IH]; simpl.
  - intros _. by repeat constructor.
  - intros [Hn Hall]%Forall_cons. case_bool_decide; simpl.
    + constructor; [lia|done].
    + constructor; [done|by apply IH].
Qed.

(** The remote-host histogram of the established connections: every host
    occurs once, with a count of at least 1; the hosts are the remote
    addresses (the text before the first colon) of the connections; and
    the counts add up to the number of established connections. *)
Theorem remote_host_histogram (established_connections : list string) :
  let hosts := remote_hosts_of established_connections in
  NoDup hosts.*1
  ∧ Forall (λ n, 1 ≤ n) hosts.*2
  ∧ foldr Z.add 0 hosts.*2 = Z.of_nat (length established_connections)
  ∧ ∀ h, h ∈ hosts.*1
         ↔ ∃ remote, remote ∈ established_connections ∧ remote_ip_of remote = h.
Proof.
  unfold remote_hosts_of.
  assert (∀ l (acc : list (string * Z)),
    NoDup acc.*1 → Forall (λ n, 1 ≤ n) acc.*2 →
    let hosts := foldl (λ hosts remote, count_host (remote_ip_of remote) hosts)
                       acc l in
    NoDup hosts.*1 ∧ Forall (λ n, 1 ≤ n) hosts.*2
    ∧ foldr Z.add 0 hosts.*2 = foldr Z.add 0 acc.*2 + Z.of_nat (length l)
    ∧ ∀ h, h ∈ hosts.*1
           ↔ h ∈ acc.*1 ∨ ∃ remote, remote ∈ l ∧ remote_ip_of remote = h) as H.
  { induction l as [|r l IH]; intros acc Hnd Hpos; simpl.
    - split; [done|]. split; [done|]. split; [lia|].
      intros h. split; [by left|]. by intros [?|(? & []%elem_of_nil & _)].
    - destruct (IH (count_host (remote_ip_of r) acc)) as (H1 & H2 & H3 & H4);
        [by apply count_host_NoDup | by apply count_host_positive|].
      split; [done|]. split; [done|]. split.
      + rewrite H3, count_host_sum. lia.
      + intros h. rewrite H4, count_host_keys. split.
        * intros [[->|?]|(x & ? & ?)]; [right; exists r; split; [by left|done]
                                       | by left
                                       | right; exists x; split; [by right|done]].
        * intros [?|(x & [->|?]%elem_of_cons & ?)];
            [by left; right | by left; left | right; by exists x]. }
  cbv zeta.
  destruct (H established_connections [] (NoDup_nil_2) (Forall_nil_2 _))
    as (H1 & H2 & H3 & H4).
  split; [done|]. split; [done|]. split; [simpl in H3; lia|].
  intros h. rewrite H4. split; [|by right]. by intros [[]%elem_of_nil|?].
Qed.





(** ** Storage collector *)

Lemma int_truediv_ok (a b : Z) (q : spec_float) :
  int_truediv a b = Ok q → b ≠ 0.
Proof. unfold int_truediv. by case_bool_decide. Qed.

Lemma int_truediv_raise (a b : Z) (e : exn) :
  int_truediv a b = Raise e →
  caught_by [PermissionError; OSError] e = false.
Proof.
  unfold int_truediv. case_bool_decide; [by intros [= <-]|].
  destruct (SFdiv _ _ _ _); by intros [= <-].
Qed.

Lemma partition_lines_ok (usage : string → result sdiskusage)
    (partition : sdiskpart) (lines : list string) :
  partition_lines usage partition = Ok lines →
  (length lines = 0 ∨ length lines = 5)%nat
  ∧ ∃ u, usage (mountpoint partition) = Ok u ∧ total u ≠ 0.
Proof.
  unfold partition_lines, used_percent_of.
  destruct (usage (mountpoint partition)) as [u|]; [|done]. simpl.
  destruct (int_truediv (total u) GiB); [|done]. simpl.
  destruct (int_truediv (free u) GiB); [|done]. simpl.
  destruct (int_truediv (used u) (total u)) eqn:Hdiv; [|done]. simpl.
  apply int_truediv_ok in Hdiv. intros Hlines. split; [|by exists u].
  destruct (_ && _); [injection Hlines as <-; by right|].
  case_bool_decide; injection Hlines as <-; [by left | by right].
Qed.

Lemma partition_lines_raise (usage : string → result sdiskusage)
    (partition : sdiskpart) (e : exn) :
  partition_lines usage partition = Raise e →
  caught_by [PermissionError; OSError] e = true →
  usage (mountpoint partition) = Raise e.
Proof.
  unfold partition_lines, used_percent_of. intros Hr Hc.
  destruct (usage (mountpoint partition)) as [u|e0];
    [|simpl in Hr; congruence].
  exfalso. simpl in Hr.
  destruct (int_truediv (total u) GiB) eqn:H1;
    [|injection Hr as ->; apply int_truediv_raise in H1; congruence].
  simpl in Hr.
  destruct (int_truediv (free u) GiB) eqn:H2;
    [|injection Hr as ->; apply int_truediv_raise in H2; congruence].
  simpl in Hr.
  destruct (int_truediv (used u) (total u)) eqn:H3;
    [|injection Hr as ->; apply int_truediv_raise in H3; congruence].
  simpl in Hr. destruct (_ && _); [done|]. by case_bool_decide.
Qed.

Lemma storage_loop_ok (usage : string → result sdiskusage)
    (partitions : list sdiskpart) (lines : list string) :
  storage_loop usage partitions = Ok lines →
  (∃ k, k ≤ length partitions ∧ length lines = 5 * k)%nat
  ∧ ∀ partition u, partition ∈ partitions →
      usage (mountpoint partition) = Ok u → total u ≠ 0.
Proof.
  revert lines. induction partitions as [|p ps IH]; intros lines;
    cbn [storage_loop].
  - intros [= <-]. split; [by exists 0%nat|]. by intros ?? ?%elem_of_nil.
  - destruct (partition_lines usage p) as [ls|e] eqn:Hp.
    + destruct (storage_loop usage ps) as [more|] eqn:Hps; [|done].
      intros [= <-]. destruct (IH _ eq_refl) as [(k & Hk & Hlen) Hall].
      destruct (partition_lines_ok _ _ _ Hp) as [Hls (u & Hu & Hne)].
      split.
      * rewrite length_app, Hlen.
        destruct Hls as [-> | ->]; [exists k | exists (S k)]; simpl; lia.
      * intros p' u' [->|Hin]%elem_of_cons Hu'; [congruence|by eapply Hall].
    + destruct (caught_by _ e) eqn:Hc; [|done]. intros Hps.
      destruct (IH _ Hps) as [(k & Hk & Hlen) Hall]. split.
      * exists k. simpl. lia.
      * intros p' u' [->|Hin]%elem_of_cons Hu'; [|by eapply Hall].
        apply partition_lines_raise in Hp; [congruence|done].
Qed.

(** When the storage collector returns, its report is the heading followed
    by five lines for each reported partition, and no partition of the
    machine had a readable usage with a total of 0 bytes: such a partition,
    whatever its file system, makes the collector raise instead. *)
Theorem storage_report_shape (st : storage_state)
    (partitions : list sdiskpart) (lines : list string) :
  disk_partitions st = Ok partitions →
  get_storage_info st = Ok lines →
  head lines = Some (NL +:+ "## 💾 Storage")
  ∧ (∃ k, k ≤ length partitions ∧ length lines = 1 + 5 * k)%nat
  ∧ ∀ partition u, partition ∈ partitions →
      disk_usage st (mountpoint partition) = Ok u → total u ≠ 0.
Proof.
  intros Hp. unfold get_storage_info. rewrite Hp. simpl.
  destruct (storage_loop _ _) as [ls|] eqn:Hloop; [|done]. simpl.
  intros [= <-]. destruct (storage_loop_ok _ _ _ Hloop) as [(k & Hk & Hlen) Hall].
  split; [done|]. split; [|done]. exists k. simpl. lia.
Qed.

Lemma storage_report_shape_witness :
  ∃ k, (k ≤ 3 ∧ 6 = 1 + 5 * k)%nat.
Proof.
  apply (storage_report_shape healthy_disk _
           [ NL +:+ "## 💾 Storage"; NL +:+ "### /dev/sda1 (/)";
             "- **Type**: Fixed (ext4)"; "- **Total**: 100.0 GB";
             "- **Free**: 25.0 GB (25.0% free)"; "- **Used**: 75.0%" ]
           eq_refl).
  vm_compute. reflexivity.
Defined.

(** ** Rounding of the percentages

    The float operations of the storage collector, [used / total],
    [* 100] and [100 -], each return the float nearest to the exact result.
    The lemmas follow [binary_round_aux] through its two shifts. *)

Lemma digits2_pos_bounds (p : positive) :
  2 ^ (Z.pos (digits2_pos p) - 1) ≤ Z.pos p < 2 ^ Z.pos (digits2_pos p).
Proof.
  induction p as [p IH|p IH|]; cbn [digits2_pos].
  - rewrite Pos2Z.inj_succ.
    replace (Z.succ (Z.pos (digits2_pos p)) - 1)
      with (Z.succ (Z.pos (digits2_pos p) - 1)) by lia.
    rewrite !Z.pow_succ_r by lia. lia.
  - rewrite Pos2Z.inj_succ.
    replace (Z.succ (Z.pos (digits2_pos p)) - 1)
      with (Z.succ (Z.pos (digits2_pos p) - 1)) by lia.
    rewrite !Z.pow_succ_r by lia. lia.
  - simpl. lia.
Qed.

Lemma Zdigits2_le (m k : Z) : 0 ≤ m < 2 ^ k → 0 ≤ k → Zdigits2 m ≤ k.
Proof.
  intros [Hm Hlt] Hk. destruct m as [|p|p]; [done| |lia]. simpl.
  pose proof (digits2_pos_bounds p) as [Hlo _].
  destruct (Z_lt_le_dec k (Z.pos (digits2_pos p))) as [Hc|]; [|done].
  exfalso. assert (2 ^ k ≤ 2 ^ (Z.pos (digits2_pos p) - 1)); [|lia].
  apply Z.pow_le_mono_r; lia.
Qed.

Lemma shr_1_inv (mrs : shr_record) (N D : Z) :
  0 < D → shr_inv mrs N D → shr_inv (shr_1 mrs) N (2 * D).
Proof.
  intros HD [Hm Hin]. destruct mrs as [m r s]. cbn [shr_m] in Hm.
  destruct m as [|[p|p|]|]; [| | | |lia];
    destruct r, s; cbn in Hin |- *; unfold shr_inv; cbn; split; try lia;
    try nia.
Qed.

Lemma pow2_xO (p : positive) : 2 ^ Z.pos p~0 = 2 ^ Z.pos p * 2 ^ Z.pos p.
Proof.
  replace (Z.pos p~0) with (Z.pos p + Z.pos p) by lia. apply Z.pow_add_r; lia.
Qed.

Lemma pow2_xI (p : positive) :
  2 ^ Z.pos p~1 = 2 ^ Z.pos p * (2 ^ Z.pos p * 2).
Proof.
  replace (Z.pos p~1) with (Z.pos p + (Z.pos p + 1)) by lia.
  rewrite !Z.pow_add_r by lia. done.
Qed.

Lemma iter_shr_1_inv (p : positive) (mrs : shr_record) (N D : Z) :
  0 < D → shr_inv mrs N D →
  shr_inv (SpecFloat.iter_pos shr_1 p mrs) N (2 ^ Z.pos p * D).
Proof.
  revert mrs D.
  induction p as [p IH|p IH|]; intros mrs D HD Hinv; cbn [SpecFloat.iter_pos].
  - assert (0 < 2 ^ Z.pos p) by (apply Z.pow_pos_nonneg; lia).
    rewrite pow2_xI, <-!Z.mul_assoc.
    apply IH; [nia|]. apply IH; [lia|]. by apply shr_1_inv.
  - assert (0 < 2 ^ Z.pos p) by (apply Z.pow_pos_nonneg; lia).
    rewrite pow2_xO, <-!Z.mul_assoc.
    apply IH; [nia|]. by apply IH.
  - change (2 ^ 1) with 2. by apply shr_1_inv.
Qed.

Lemma shr_record_of_loc_inv (m : Z) (l : location) (N D : Z) :
  0 ≤ m → inbetween m l N D → shr_inv (shr_record_of_loc m l) N D.
Proof. intros Hm Hin. destruct l as [|[]]; by split. Qed.

(** The first shift of the rounding. *)
Lemma shr_fexp_inv (m e : Z) (l : location) (N D : Z) :
  0 ≤ m → 0 < D → inbetween m l N D →
  let e1 := Z.max e (fexp prec emax (Zdigits2 m + e)) in
  (shr_fexp prec emax m e l).2 = e1
  ∧ shr_inv (shr_fexp prec emax m e l).1 N (2 ^ (e1 - e) * D).
Proof.
  intros Hm HD Hin e1. unfold shr_fexp, shr.
  pose proof (shr_record_of_loc_inv m l N D Hm Hin) as Hinv.
  destruct (fexp prec emax (Zdigits2 m + e) - e) as [|n|n] eqn:Hn;
    cbn [fst snd].
  - split; [lia|]. replace (e1 - e) with 0 by lia. by rewrite Z.mul_1_l.
  - split; [lia|]. replace (e1 - e) with (Z.pos n) by lia.
    by apply iter_shr_1_inv.
  - split; [lia|]. replace (e1 - e) with 0 by lia. by rewrite Z.mul_1_l.
Qed.

Lemma round_nearest_even_spec (m : Z) (l : location) (N D : Z) :
  0 < D → inbetween m l N D →
  let m1 := round_nearest_even m l in
  m ≤ m1 ≤ m + 1 ∧ 2 * Z.abs (m1 * D - N) ≤ D
  ∧ (N < (m + 1) * D) ∧ m * D ≤ N.
Proof.
  intros HD Hin. destruct l as [|[]]; cbn in Hin |- *.
  - nia.
  - destruct (Z.even m); nia.
  - nia.
  - nia.
Qed.

Lemma inbetween_bounds (m : Z) (l : location) (N D : Z) :
  0 < D → inbetween m l N D → m * D ≤ N < (m + 1) * D.
Proof. intros HD Hin. destruct l as [|[]]; cbn in Hin; nia. Qed.

Lemma Zdigits2_lt (m : Z) : 0 ≤ m → m < 2 ^ Zdigits2 m.
Proof.
  intros Hm. destruct m as [|p|p]; [done| |lia]. simpl.
  apply digits2_pos_bounds.
Qed.

Lemma Zdigits2_nonneg (m : Z) : 0 ≤ Zdigits2 m.
Proof. destruct m; simpl; lia. Qed.

Lemma fexp_le (x y : Z) : x ≤ y → fexp prec emax x ≤ fexp prec emax y.
Proof. unfold fexp. lia. Qed.

Lemma fexp_succ (x : Z) : fexp prec emax (x + 1) ≤ fexp prec emax x + 1.
Proof. unfold fexp. lia. Qed.

Lemma fexp_emin (x : Z) : -1074 ≤ fexp prec emax x.
Proof. unfold fexp, emin, prec, emax. lia. Qed.

Lemma fexp_ge (x : Z) : x - 53 ≤ fexp prec emax x.
Proof. unfold fexp, emin, prec, emax. lia. Qed.

Lemma fexp_cases (x : Z) :
  fexp prec emax x = x - 53 ∨ fexp prec emax x = -1074.
Proof. unfold fexp, emin, prec, emax. lia. Qed.

Lemma binary_round_aux_spec (s : bool) (m e : Z) (l : location) (N D : Z) :
  0 ≤ m → 0 < D → inbetween m l N D →
  let e1 := Z.max e (fexp prec emax (Zdigits2 m + e)) in
  ∃ m1,
    0 ≤ m1
    ∧ 2 * Z.abs (m1 * (2 ^ (e1 - e) * D) - N) ≤ 2 ^ (e1 - e) * D
    ∧ match binary_round_aux prec emax s m e l with
      | S754_zero s' => s' = s ∧ m1 = 0
      | S754_finite s' m2 e2 =>
          s' = s ∧ e1 ≤ e2 ≤ e1 + 1 ∧ Z.pos m2 * 2 ^ (e2 - e1) = m1
          ∧ e2 ≤ emax - prec
      | S754_infinity s' => s' = s ∧ 0 < m1 ∧ emax - prec < e1 + 1
      | S754_nan => False
      end.
Proof.
  intros Hm HD Hin e1.
  destruct (shr_fexp_inv m e l N D Hm HD Hin) as [He1 [Hm' Hin']].
  fold e1 in He1, Hm', Hin'.
  unfold binary_round_aux.
  destruct (shr_fexp prec emax m e l) as [mrs' e'] eqn:H1.
  cbn [fst snd] in He1, Hm', Hin'. subst e'.
  set (K := 2 ^ (e1 - e)) in *.
  assert (0 < K) as HK by (apply Z.pow_pos_nonneg; lia).
  set (m' := shr_m mrs') in *.
  destruct (round_nearest_even_spec m' _ N (K * D) ltac:(nia) Hin')
    as (Hm1 & Hnear & Hup & Hlo).
  set (m1 := round_nearest_even m' (loc_of_shr_record mrs')) in *.
  pose proof (inbetween_bounds m l N D HD Hin) as Hb.
  (* the mantissa after the first shift is canonical or shorter *)
  assert (fexp prec emax (Zdigits2 m' + e1) ≤ e1) as Hcan.
  { destruct (Z_le_gt_dec (fexp prec emax (Zdigits2 m + e)) e) as [Hns|Hsh].
    - assert (e1 = e) as Heq by lia.
      assert (K = 1) as HK1 by (unfold K; rewrite Heq, Z.sub_diag; done).
      assert (m' = m) as ->; [|by rewrite Heq].
      rewrite HK1, Z.mul_1_l in Hup, Hlo. nia.
    - assert (e1 = fexp prec emax (Zdigits2 m + e)) as Heq by lia.
      assert (m' * K ≤ m) as Hq by nia.
      destruct (Z_le_gt_dec (e1 - e) (Zdigits2 m)) as [Hd|Hd].
      + assert (Zdigits2 m' ≤ Zdigits2 m - (e1 - e)) as Hdig.
        { apply Zdigits2_le; [|lia]. split; [done|].
          pose proof (Zdigits2_lt m Hm) as Hlt.
          replace (Zdigits2 m) with ((Zdigits2 m - (e1 - e)) + (e1 - e)) in Hlt
            by lia.
          rewrite Z.pow_add_r in Hlt by lia. fold K in Hlt.
          assert (0 < 2 ^ (Zdigits2 m - (e1 - e)))
            by (apply Z.pow_pos_nonneg; lia).
          nia. }
        rewrite Heq at 2. apply fexp_le. lia.
      + assert (m < K) as HmK.
        { pose proof (Zdigits2_lt m Hm) as Hlt.
          assert (2 ^ Zdigits2 m ≤ K); [|lia].
          apply Z.pow_le_mono_r; [lia|]. lia. }
        assert (m' = 0) as -> by nia. simpl.
        pose proof (fexp_emin (Zdigits2 m + e)).
        unfold fexp, emin, prec, emax in *. lia. }
  assert (m' < 2 ^ Zdigits2 m') as Hlt' by (by apply Zdigits2_lt).
  pose proof (Zdigits2_nonneg m') as Hd0.
  exists m1. split; [lia|]. split; [done|].
  unfold shr_fexp at 1, shr.
  destruct (fexp prec emax (Zdigits2 m1 + e1) - e1) as [|n2|n2] eqn:Hn2;
    cbn [shr_m shr_record_of_loc];
    try (destruct m1 as [|q|q] eqn:Hq; [done| |lia];
         case_eq (e1 <=? emax - prec); intros Hov;
         [apply Z.leb_le in Hov | apply Z.leb_gt in Hov];
         (split; [done|]); [|lia];
         split; [lia|]; rewrite Z.sub_diag; lia).
  (* a second shift: the rounding carried into a new bit *)
  assert (Zdigits2 m1 ≤ Zdigits2 m' + 1) as Hdig1.
  { apply Zdigits2_le; [|lia]. split; [lia|].
    rewrite Z.pow_add_r by lia. change (2 ^ 1) with 2. lia. }
  assert (fexp prec emax (Zdigits2 m1 + e1) ≤ e1 + 1) as Hle1.
  { pose proof (fexp_le (Zdigits2 m1 + e1) (Zdigits2 m' + e1 + 1)
                  ltac:(lia)).
    pose proof (fexp_succ (Zdigits2 m' + e1)). lia. }
  assert (Z.pos n2 = 1) as Hone by lia.
  assert (n2 = 1%positive) as -> by lia.
  assert (¬ m1 < 2 ^ Zdigits2 m') as Hnot.
  { intros Hlt1.
    assert (Zdigits2 m1 ≤ Zdigits2 m') by (apply Zdigits2_le; lia).
    assert (fexp prec emax (Zdigits2 m1 + e1)
            ≤ fexp prec emax (Zdigits2 m' + e1)) by (apply fexp_le; lia).
    lia. }
  assert (m1 = 2 ^ Zdigits2 m') as Hpow by lia.
  assert (0 < Zdigits2 m') as Hdpos.
  { destruct (Z.eq_dec (Zdigits2 m') 0) as [Hz|]; [|lia]. exfalso.
    rewrite Hz in Hpow. change (2 ^ 0) with 1 in Hpow.
    rewrite Hpow in Hn2. simpl in Hn2.
    rewrite Hz in Hcan. unfold fexp, emin, prec, emax in *. lia. }
  assert (∃ k, 0 < k ∧ m1 = 2 * k) as (k & Hk & Hm1k).
  { exists (2 ^ (Zdigits2 m' - 1)). split; [apply Z.pow_pos_nonneg; lia|].
    rewrite Hpow. rewrite <-Z.pow_succ_r by lia. f_equal. lia. }
  cbn [SpecFloat.iter_pos].
  destruct m1 as [|[q|q|]|] eqn:Hq; try lia.
  cbn [shr_1 shr_m orb].
  case_eq (e1 + 1 <=? emax - prec); intros Hov;
    [apply Z.leb_le in Hov | apply Z.leb_gt in Hov].
  - split; [done|]. split; [lia|]. split; [|lia].
    replace (e1 + 1 - e1) with 1 by lia. change (2 ^ 1) with 2. lia.
  - split; [done|]. lia.
Qed.

Lemma new_location_spec (d r q : Z) :
  0 < d → 0 ≤ r < d → inbetween q (new_location d r) (d * q + r) d.
Proof.
  intros Hd Hr. unfold new_location, new_location_even, new_location_odd.
  destruct (Z.even d) eqn:Hev.
  - destruct (Z.eqb_spec r 0) as [->|Hr0]; [cbn; lia|].
    destruct (Z.compare_spec (2 * r) d); cbn; nia.
  - destruct (Z.eqb_spec r 0) as [->|Hr0]; [cbn; lia|].
    assert (2 * r ≠ d) as Hodd.
    { intros <-. rewrite Z.even_mul in Hev. done. }
    destruct (Z.compare_spec (2 * r + 1) d); cbn; nia.
Qed.

Lemma round_half_even_spec (n d : Z) :
  0 < d → 2 * Z.abs (d * round_half_even n d - n) ≤ d.
Proof.
  intros Hd. unfold round_half_even.
  pose proof (Z_div_mod_eq_full n d) as Hdiv.
  pose proof (Z.mod_pos_bound n d Hd) as Hmod.
  destruct (Z.compare_spec (2 * (n mod d)) d); [destruct (Z.even _)| |]; nia.
Qed.

Lemma round_half_even_nonneg (n d : Z) :
  0 < d → 0 ≤ n → 0 ≤ round_half_even n d.
Proof.
  intros Hd Hn. unfold round_half_even.
  assert (0 ≤ n / d) by (apply Z.div_pos; lia).
  destruct (_ ?= _); [destruct (Z.even _)| |]; lia.
Qed.

(** The quotient of two positive integers, as the division hands it to
    the rounding. *)
Lemma SFdiv_core_spec (pu pt : positive) :
  ∃ q e' l,
    SFdiv_core_binary prec emax (Z.pos pu) 0 (Z.pos pt) 0 = (q, e', l)
    ∧ e' ≤ 0 ∧ 0 ≤ q
    ∧ inbetween q l (Z.pos pu * 2 ^ (- e')) (Z.pos pt).
Proof.
  unfold SFdiv_core_binary.
  set (e' := Z.min _ _).
  assert (e' ≤ 0) as He' by (unfold e'; lia).
  set (m' := match 0 - 0 - e' with
             | 0 => Z.pos pu
             | Z.pos _ => Z.shiftl (Z.pos pu) (0 - 0 - e')
             | Z.neg _ => 0
             end).
  assert (m' = Z.pos pu * 2 ^ (- e')) as Hm'.
  { unfold m'. replace (0 - 0 - e') with (- e') by lia.
    destruct (- e') as [|s|s] eqn:Hs; [simpl; lia| |lia].
    rewrite Z.shiftl_mul_pow2 by lia. done. }
  pose proof (Z_div_mod m' (Z.pos pt) ltac:(lia)) as Hdm.
  destruct (Z.div_eucl m' (Z.pos pt)) as [q r]. destruct Hdm as [Heq Hr].
  exists q, e', (new_location (Z.pos pt) r). split; [done|]. split; [done|].
  assert (0 < 2 ^ (- e')) by (apply Z.pow_pos_nonneg; lia).
  split; [nia|].
  rewrite <-Hm', Heq. apply new_location_spec; lia.
Qed.

Lemma pow2_pos (k : Z) : 0 ≤ k → 0 < 2 ^ k.
Proof. intros. apply Z.pow_pos_nonneg; lia. Qed.

Lemma pow2_split (a b : Z) :
  0 ≤ a → 0 ≤ b → 2 ^ (a + b) = 2 ^ a * 2 ^ b.
Proof. intros. apply Z.pow_add_r; lia. Qed.

Lemma int_truediv_ratio (used total : Z) (ratio : spec_float) :
  0 ≤ used ≤ total → 0 < total →
  int_truediv used total = Ok ratio →
  ratio = S754_zero false
  ∨ ∃ m2 e2, ratio = S754_finite false m2 e2 ∧ e2 ≤ 0
             ∧ Z.pos m2 ≤ 2 ^ (- e2).
Proof.
  intros Hu Ht. unfold int_truediv.
  rewrite bool_decide_eq_false_2 by lia.
  destruct total as [|pt|]; try lia. destruct used as [|pu|pu]; try lia.
  { cbn. intros [= <-]. by left. }
  cbn [exact_of_int SFdiv].
  destruct (SFdiv_core_spec pu pt) as (q & e' & l & -> & He' & Hq & Hin).
  cbn [xorb].
  destruct (binary_round_aux_spec false q e' l (Z.pos pu * 2 ^ (- e'))
              (Z.pos pt) Hq ltac:(lia) Hin) as (m1 & Hm1 & Hnear & Hres).
  set (e1 := Z.max e' (fexp prec emax (Zdigits2 q + e'))) in *.
  pose proof (inbetween_bounds q l (Z.pos pu * 2 ^ (- e')) (Z.pos pt)
                ltac:(lia) Hin) as [Hlo _].
  set (S := 2 ^ (- e')) in *.
  assert (0 < S) as HS by (apply pow2_pos; lia).
  (* the quotient is at most 1: its exponent is not positive *)
  assert (q ≤ S) as HqS by nia.
  assert (e1 ≤ 0) as He1.
  { assert (Zdigits2 q ≤ - e' + 1) as Hd.
    { apply Zdigits2_le; [|lia]. split; [done|].
      rewrite pow2_split by lia. fold S. change (2 ^ 1) with 2. lia. }
    pose proof (fexp_le (Zdigits2 q + e') 1 ltac:(lia)).
    unfold e1. unfold fexp, emin, prec, emax in *. lia. }
  set (K := 2 ^ (e1 - e')) in *.
  set (G := 2 ^ (- e1)).
  assert (0 < K) as HK by (apply pow2_pos; lia).
  assert (0 < G) as HG by (apply pow2_pos; lia).
  assert (S = K * G) as HSKG.
  { unfold S, K, G. rewrite <-pow2_split by lia. f_equal. lia. }
  assert (m1 ≤ G) as Hm1G.
  { assert (2 * (m1 * (K * Z.pos pt)) ≤ 2 * (Z.pos pu * S) + K * Z.pos pt)
      as H1 by lia.
    assert (Z.pos pu * S ≤ Z.pos pt * (K * G)) as H2 by nia.
    assert (2 * m1 * (K * Z.pos pt) ≤ (2 * G + 1) * (K * Z.pos pt)) as H3
      by nia.
    assert (0 < K * Z.pos pt) as H4 by nia.
    assert (2 * m1 ≤ 2 * G + 1); [|lia].
    apply (Z.mul_le_mono_pos_r _ _ (K * Z.pos pt)); done. }
  destruct (binary_round_aux prec emax false q e' l) as [s'|s'| |s' m2 e2];
    [| |done|].
  - destruct Hres as [-> _]. intros [= <-]. by left.
  - done.
  - destruct Hres as (-> & He2 & Hm2 & _). intros [= <-]. right.
    exists m2, e2. split; [done|].
    destruct (Z.eq_dec e2 e1) as [->|Hne].
    + split; [done|]. rewrite Z.sub_diag in Hm2. fold G. lia.
    + assert (e2 = e1 + 1) as -> by lia.
      replace (e1 + 1 - e1) with 1 in Hm2 by lia. change (2 ^ 1) with 2 in Hm2.
      destruct (Z.eq_dec e1 0) as [Hz|Hnz].
      * exfalso. unfold G in Hm1G. rewrite Hz in Hm1G. simpl in Hm1G. lia.
      * split; [lia|].
        assert (G = 2 ^ (- (e1 + 1)) * 2) as HG2.
        { unfold G. replace (- e1) with (- (e1 + 1) + 1) by lia.
          rewrite pow2_split by lia. done. }
        lia.
Qed.

Lemma hundred_eq : hundred = S754_finite false 7036874417766400 (-46).
Proof. reflexivity. Qed.

(** Rounding an exact value [mz * 2 ^ ez] that is at most 100, given on a
    grid at least as fine as that of the floats below 128. *)
Lemma round_below_128 (mz ez : Z) :
  0 ≤ mz → ez ≤ -46 → mz ≤ 100 * 2 ^ (- ez) →
  ∃ Rz,
    0 ≤ Rz ≤ 100 * 2 ^ (- ez)
    ∧ 2 ^ 47 * Z.abs (Rz - mz) ≤ 2 ^ (- ez)
    ∧ match binary_round_aux prec emax false mz ez loc_Exact with
      | S754_zero s => s = false ∧ Rz = 0
      | S754_finite s m e =>
          s = false ∧ ez ≤ e ≤ -45 ∧ Z.pos m * 2 ^ (e - ez) = Rz
      | _ => False
      end.
Proof.
  intros Hmz Hez Hle.
  destruct (binary_round_aux_spec false mz ez loc_Exact mz 1 Hmz ltac:(lia)
              ltac:(simpl; lia)) as (m1 & Hm1 & Hnear & Hres).
  set (e1 := Z.max ez (fexp prec emax (Zdigits2 mz + ez))) in *.
  set (S := 2 ^ (- ez)) in *.
  assert (0 < S) as HS by (apply pow2_pos; lia).
  assert (e1 ≤ -46) as He1.
  { assert (Zdigits2 mz ≤ - ez + 7) as Hd.
    { apply Zdigits2_le; [|lia]. split; [done|].
      rewrite pow2_split by lia. fold S. change (2 ^ 7) with 128. lia. }
    pose proof (fexp_le (Zdigits2 mz + ez) 7 ltac:(lia)) as Hf.
    change (fexp prec emax 7) with (-46) in Hf. lia. }
  assert (ez ≤ e1) as Hee by lia.
  set (K := 2 ^ (e1 - ez)) in *.
  set (G := 2 ^ (- e1)).
  assert (0 < K) as HK by (apply pow2_pos; lia).
  assert (2 ^ 46 ≤ G) as HG by (apply Z.pow_le_mono_r; lia).
  assert (S = K * G) as HSKG.
  { unfold S, K, G. rewrite <-pow2_split by lia. f_equal. lia. }
  rewrite Z.mul_1_r in Hnear.
  assert (m1 ≤ 100 * G) as Hm1G.
  { assert (2 * (m1 * K) ≤ 2 * mz + K) as H1 by lia.
    assert (2 * m1 * K ≤ (200 * G + 1) * K) as H3 by nia.
    assert (2 * m1 ≤ 200 * G + 1); [|lia].
    apply (Z.mul_le_mono_pos_r _ _ K); done. }
  exists (m1 * K). split; [nia|]. split.
  { assert (2 ^ 47 * Z.abs (m1 * K - mz) ≤ 2 ^ 46 * K) by lia. nia. }
  destruct (binary_round_aux prec emax false mz ez loc_Exact)
    as [s'|s'| |s' m2 e2].
  - destruct Hres as [-> ->]. done.
  - unfold emax, prec in Hres. lia.
  - done.
  - destruct Hres as (-> & He2 & Hm2 & _). split; [done|]. split; [lia|].
    rewrite <-Hm2. unfold K. rewrite <-Z.mul_assoc, <-pow2_split by lia.
    do 2 f_equal. lia.
Qed.

(** [(used / total) * 100] lies between 0 and 100. *)
Lemma percent_spec (ratio : spec_float) :
  (ratio = S754_zero false
   ∨ ∃ m2 e2, ratio = S754_finite false m2 e2 ∧ e2 ≤ 0
              ∧ Z.pos m2 ≤ 2 ^ (- e2)) →
  SFmul prec emax ratio hundred = S754_zero false
  ∨ ∃ mp ep, SFmul prec emax ratio hundred = S754_finite false mp ep
             ∧ ep ≤ -45 ∧ Z.pos mp ≤ 100 * 2 ^ (- ep).
Proof.
  rewrite hundred_eq. intros [->|(m2 & e2 & -> & He2 & Hm2)]; [by left|].
  cbn [SFmul xorb].
  assert (0 < 2 ^ (- e2)) as HS2 by (apply pow2_pos; lia).
  destruct (round_below_128 (Z.pos (m2 * 7036874417766400)) (e2 + -46))
    as (Rz & HRz & _ & Hres); [done|lia| |].
  { replace (- (e2 + -46)) with (- e2 + 46) by lia.
    rewrite pow2_split by lia. change (2 ^ 46) with 70368744177664.
    rewrite Pos2Z.inj_mul. lia. }
  destruct (binary_round_aux prec emax false _ (e2 + -46) loc_Exact)
    as [s'|s'| |s' mp ep]; [|done|done|].
  - destruct Hres as [-> _]. by left.
  - destruct Hres as (-> & Hep & Hmp). right. exists mp, ep.
    split; [done|]. split; [lia|].
    assert (0 < 2 ^ (ep - (e2 + -46))) as HK by (apply pow2_pos; lia).
    assert (2 ^ (- (e2 + -46)) = 2 ^ (- ep) * 2 ^ (ep - (e2 + -46))) as HS.
    { rewrite <-pow2_split by lia. f_equal. lia. }
    rewrite HS in HRz.
    apply (Z.mul_le_mono_pos_r _ _ (2 ^ (ep - (e2 + -46)))); [done|]. lia.
Qed.

Lemma iter_xO (d mx : positive) :
  Z.pos (Pos.iter xO mx d) = Z.pos mx * 2 ^ Z.pos d.
Proof.
  induction d as [|d IH] using Pos.peano_ind.
  - simpl. lia.
  - rewrite Pos.iter_succ, Pos2Z.inj_succ, Z.pow_succ_r by lia.
    rewrite Pos2Z.inj_xO, IH. lia.
Qed.

Lemma shl_align_spec (mx : positive) (ex ex' : Z) :
  ∃ mz ez, shl_align mx ex ex' = (mz, ez) ∧ ez ≤ ex ∧ ez = Z.min ex ex'
           ∧ Z.pos mz = Z.pos mx * 2 ^ (ex - ez).
Proof.
  unfold shl_align. destruct (ex' - ex) as [|d|d] eqn:Hd.
  - exists mx, ex. rewrite Z.sub_diag, Z.mul_1_r. split; [done|]. lia.
  - exists mx, ex. rewrite Z.sub_diag, Z.mul_1_r. split; [done|]. lia.
  - assert (ex - ex' = Z.pos d) as Hpos.
    { rewrite <-(Pos2Z.opp_neg d), <-Hd. lia. }
    exists (Pos.iter xO mx d), ex'. split; [done|].
    split; [lia|]. split; [lia|]. by rewrite iter_xO, Hpos.
Qed.

(** [100 - p] for a float [p] between 0 and 100: the values scaled by
    [2 ^ c] are integers, and the difference is off by at most
    [2 ^ c / 2 ^ 47]. *)
Lemma free_percent_spec (mp : positive) (ep : Z) :
  ep ≤ -45 → Z.pos mp ≤ 100 * 2 ^ (- ep) →
  ∃ c Rz,
    - ep ≤ c ∧ 45 ≤ c ∧ 0 ≤ Rz
    ∧ 2 ^ 47 * Z.abs (Rz - (100 * 2 ^ c - Z.pos mp * 2 ^ (ep + c))) ≤ 2 ^ c
    ∧ match SFsub prec emax hundred (S754_finite false mp ep) with
      | S754_zero s => s = false ∧ Rz = 0
      | S754_finite s m e =>
          s = false ∧ - c ≤ e ≤ -45 ∧ Z.pos m * 2 ^ (e + c) = Rz
      | _ => False
      end.
Proof.
  intros Hep Hmp. rewrite hundred_eq. cbn [SFsub cond_Zopp].
  destruct (shl_align_spec 7036874417766400 (-46) (Z.min (-46) ep))
    as (ma & ea & -> & _ & Hea & Hma).
  destruct (shl_align_spec mp ep (Z.min (-46) ep))
    as (mb & eb & -> & _ & Heb & Hmb).
  cbn [fst].
  set (ez := Z.min (-46) ep) in *.
  assert (ea = ez) as -> by lia. assert (eb = ez) as -> by lia.
  assert (0 < 2 ^ (- ez)) as HSz by (apply pow2_pos; lia).
  assert (0 < 2 ^ (ep - ez)) as HKz by (apply pow2_pos; lia).
  assert (Z.pos ma = 100 * 2 ^ (- ez)) as Ha.
  { rewrite Hma. replace (- ez) with (46 + (-46 - ez)) by lia.
    rewrite pow2_split by lia. change (2 ^ 46) with 70368744177664. lia. }
  assert (2 ^ (- ez) = 2 ^ (- ep) * 2 ^ (ep - ez)) as HSplit.
  { rewrite <-pow2_split by lia. f_equal. lia. }
  assert (Z.pos mb ≤ Z.pos ma) as Hle by nia.
  unfold binary_normalize.
  destruct (Z.pos ma - Z.pos mb) as [|pm|pm] eqn:HM; [| |lia].
  - exists (- ez), 0. split; [lia|]. split; [lia|]. split; [done|].
    split; [|done].
    replace (ep + - ez) with (ep - ez) by lia. rewrite <-Hmb, <-Ha. lia.
  - unfold binary_round.
    destruct (shl_align_spec pm ez
                (fexp prec emax (Z.pos (digits2_pos pm) + ez)))
      as (mz & ez' & -> & Hez' & _ & Hmz).
    assert (0 < 2 ^ (ez - ez')) as HK' by (apply pow2_pos; lia).
    assert (2 ^ (- ez') = 2 ^ (- ez) * 2 ^ (ez - ez')) as HS'.
    { rewrite <-pow2_split by lia. f_equal. lia. }
    assert (2 ^ (ep + - ez') = 2 ^ (ep - ez) * 2 ^ (ez - ez')) as HP'.
    { rewrite <-pow2_split by lia. f_equal. lia. }
    destruct (round_below_128 (Z.pos mz) ez') as (Rz & HRz & Hnear & Hres);
      [done|lia| |].
    { rewrite Hmz, HS', Z.mul_assoc. apply Z.mul_le_mono_nonneg_r; lia. }
    exists (- ez'), Rz. split; [lia|]. split; [lia|]. split; [lia|]. split.
    { replace (100 * 2 ^ (- ez') - Z.pos mp * 2 ^ (ep + - ez'))
        with (Z.pos mz); [done|].
      rewrite Hmz, HS', HP', <-HM, Ha, Hmb. ring. }
    destruct (binary_round_aux prec emax false (Z.pos mz) ez' loc_Exact)
      as [s'|s'| |s' m e]; [done|done|done|].
    destruct Hres as (-> & He & Hm). split; [done|]. split; [lia|].
    by replace (e + - ez') with (e - ez') by lia.
Qed.

(** The tenths printed for a float with a negative exponent, against its
    value scaled by [2 ^ c]. *)
Lemma tenths_scaled (s : bool) (m : positive) (e c : Z) :
  e < 0 → - e ≤ c →
  0 ≤ tenths (S754_finite s m e)
  ∧ 2 * Z.abs (2 ^ c * tenths (S754_finite s m e)
               - 10 * (Z.pos m * 2 ^ (e + c))) ≤ 2 ^ c.
Proof.
  intros He Hc. unfold tenths, SFnum, SFden.
  destruct (Z.leb_spec 0 e) as [|_]; [lia|].
  assert (0 < 2 ^ (- e)) as HD by (apply pow2_pos; lia).
  assert (0 < 2 ^ (e + c)) as HK by (apply pow2_pos; lia).
  assert (2 ^ c = 2 ^ (- e) * 2 ^ (e + c)) as ->.
  { rewrite <-pow2_split by lia. f_equal. lia. }
  pose proof (round_half_even_spec (10 * Z.pos m) (2 ^ (- e)) HD) as Hr.
  split; [apply round_half_even_nonneg; lia|].
  set (t := round_half_even _ _) in *. set (D := 2 ^ (- e)) in *.
  set (K := 2 ^ (e + c)) in *.
  replace (D * K * t - 10 * (Z.pos m * K))
    with ((D * t - 10 * Z.pos m) * K) by ring.
  rewrite Z.abs_mul, (Z.abs_eq K) by lia. nia.
Qed.

Lemma percentages_add_up (ratio : spec_float) :
  (ratio = S754_zero false
   ∨ ∃ m2 e2, ratio = S754_finite false m2 e2 ∧ e2 ≤ 0
              ∧ Z.pos m2 ≤ 2 ^ (- e2)) →
  let used_percent := SFmul prec emax ratio hundred in
  let free_percent := SFsub prec emax hundred used_percent in
  ∃ f g,
    0 ≤ f ∧ 0 ≤ g ∧ 999 ≤ f + g ≤ 1001
    ∧ fmt_1f free_percent = fmt_tenths false f
    ∧ fmt_1f used_percent = fmt_tenths false g.
Proof.
  intros Hratio. apply percent_spec in Hratio.
  destruct Hratio as [->|(mp & ep & -> & Hep & Hmp)]; cbv zeta.
  { exists 1000, 0. by vm_compute. }
  destruct (free_percent_spec mp ep Hep Hmp)
    as (c & Rz & Hc1 & Hc2 & HRz & Hnear & Hres).
  destruct (tenths_scaled false mp ep c ltac:(lia) ltac:(lia)) as [Hg0 Hg].
  set (g := tenths (S754_finite false mp ep)) in *.
  set (S := 2 ^ c) in *. set (Pz := Z.pos mp * 2 ^ (ep + c)) in *.
  assert (2 ^ 45 ≤ S) as HS by (apply Z.pow_le_mono_r; lia).
  change (2 ^ 45) with 35184372088832 in HS.
  change (2 ^ 47) with 140737488355328 in Hnear.
  destruct (SFsub prec emax hundred (S754_finite false mp ep))
    as [s'|s'| |s' mq eq]; [|done|done|].
  - destruct Hres as [-> ->]. exists 0, g.
    split; [done|]. split; [done|]. split; [|done].
    assert (S * g < S * 1002) by lia. assert (S * 998 < S * g) by lia.
    nia.
  - destruct Hres as (-> & Heq & <-).
    destruct (tenths_scaled false mq eq c ltac:(lia) ltac:(lia)) as [Hf0 Hf].
    set (f := tenths (S754_finite false mq eq)) in *. fold S in Hf.
    exists f, g. split; [done|]. split; [done|]. split; [|done].
    assert (S * (f + g) < S * 1002) by lia.
    assert (S * 998 < S * (f + g)) by lia.
    nia.
Qed.

Lemma partition_lines_percentages (usage : string → result sdiskusage)
    (partition : sdiskpart) (u : sdiskusage) (lines : list string) :
  usage (mountpoint partition) = Ok u →
  0 ≤ free u ≤ total u → used u = total u - free u →
  reported partition = true →
  partition_lines usage partition = Ok lines →
  ∃ type_line total_line free_gb f g,
    lines = [ NL +:+ "### " +:+ device partition +:+ " ("
                +:+ mountpoint partition +:+ ")";
              type_line; total_line; free_text free_gb f; used_text g ]
    ∧ int_truediv (free u) GiB = Ok free_gb
    ∧ 0 ≤ f ∧ 0 ≤ g ∧ 999 ≤ f + g ≤ 1001
    ∧ (total u = 100 * GiB → free u = 25 * GiB →
       free_text free_gb f = "- **Free**: 25.0 GB (25.0% free)"
       ∧ used_text g = "- **Used**: 75.0%").
Proof.
  intros Hu Hfree Hused Hrep. unfold partition_lines, used_percent_of.
  rewrite Hu. simpl.
  destruct (int_truediv (total u) GiB) as [total_gb|]; [|done]. simpl.
  destruct (int_truediv (free u) GiB) as [free_gb|] eqn:Hfgb; [|done]. simpl.
  destruct (int_truediv (used u) (total u)) as [ratio|] eqn:Hdiv; [|done].
  simpl. pose proof (int_truediv_ok _ _ _ Hdiv) as Hne.
  destruct (percentages_add_up ratio) as (f & g & Hf & Hg & Hsum & Hft & Hgt).
  { apply (int_truediv_ratio (used u) (total u)); [lia|lia|done]. }
  assert (free_line free_gb (SFmul prec emax ratio hundred)
          = free_text free_gb f) as Hfl.
  { unfold free_line, free_text. by rewrite Hft. }
  assert (used_line (SFmul prec emax ratio hundred) = used_text g) as Hul.
  { unfold used_line, used_text. by rewrite Hgt. }
  assert (total u = 100 * GiB → free u = 25 * GiB →
          free_text free_gb f = "- **Free**: 25.0 GB (25.0% free)"
          ∧ used_text g = "- **Used**: 75.0%") as Hex.
  { intros Ht Hfr. rewrite Ht, Hfr in Hused. rewrite Hused, Ht in Hdiv.
    rewrite Hfr in Hfgb. rewrite <-Hfl, <-Hul.
    vm_compute in Hdiv, Hfgb. injection Hdiv as <-. injection Hfgb as <-.
    split; vm_compute; reflexivity. }
  unfold reported in Hrep. unfold partition_report.
  destruct (_ && _); [|case_bool_decide; [done|]];
    intros [= <-]; rewrite Hfl, Hul;
    (eexists _, _, free_gb, f, g; split; [reflexivity|done]).
Qed.

Lemma storage_loop_block (usage : string → result sdiskusage)
    (partitions : list sdiskpart) (out : list string)
    (partition : sdiskpart) (u : sdiskusage) :
  storage_loop usage partitions = Ok out →
  partition ∈ partitions →
  usage (mountpoint partition) = Ok u →
  ∃ lines before after,
    partition_lines usage partition = Ok lines
    ∧ out = before ++ lines ++ after.
Proof.
  intros Hloop Hin Hu. revert out Hloop.
  induction partitions as [|p ps IH]; intros out;
    [by apply elem_of_nil in Hin|].
  cbn [storage_loop].
  apply elem_of_cons in Hin as [<-|Hin].
  - destruct (partition_lines usage partition) as [ls|e] eqn:Hp.
    + destruct (storage_loop usage ps) as [more|]; [|done].
      intros [= <-]. by exists ls, [], more.
    + destruct (caught_by _ e) eqn:Hc; [|done].
      apply partition_lines_raise in Hp; [congruence|done].
  - destruct (partition_lines usage p) as [ls|e].
    + destruct (storage_loop usage ps) as [more|]; [|done].
      intros [= <-]. destruct (IH Hin _ eq_refl) as (l & b & a & Hl & ->).
      exists l, (ls ++ b), a. by rewrite <-(assoc_L (++)).
    + destruct (caught_by _ e); [|done]. intros Hps.
      destruct (IH Hin _ Hps) as (l & b & a & Hl & ->). by exists l, b, a.
Qed.

(** C4. Every partition the storage collector reports, with byte counts
    [0 <= free <= total] and [used = total - free], has its block of five
    lines in the report; the free and the used percentage it prints are
    [f / 10] and [g / 10] for tenths [f] and [g] that add up to 1000 give
    or take one tenth; and for a total of 100 GiB with 25 GiB free the two
    lines are exactly those of the example. *)
Theorem storage_percentages_round_trip (st : storage_state)
    (partitions : list sdiskpart) (out : list string)
    (partition : sdiskpart) (u : sdiskusage) :
  disk_partitions st = Ok partitions →
  get_storage_info st = Ok out →
  partition ∈ partitions →
  disk_usage st (mountpoint partition) = Ok u →
  0 ≤ free u ≤ total u →
  used u = total u - free u →
  reported partition = true →
  ∃ before after type_line total_line free_gb f g,
    out = before
            ++ [ NL +:+ "### " +:+ device partition +:+ " ("
                   +:+ mountpoint partition +:+ ")";
                 type_line; total_line; free_text free_gb f; used_text g ]
            ++ after
    ∧ int_truediv (free u) GiB = Ok free_gb
    ∧ 0 ≤ f ∧ 0 ≤ g ∧ 999 ≤ f + g ≤ 1001
    ∧ (total u = 100 * GiB → free u = 25 * GiB →
       free_text free_gb f = "- **Free**: 25.0 GB (25.0% free)"
       ∧ used_text g = "- **Used**: 75.0%").
Proof.
  intros Hp Hout Hin Hu Hfree Hused Hrep. unfold get_storage_info in Hout.
  rewrite Hp in Hout. simpl in Hout.
  destruct (storage_loop _ _) as [ls|] eqn:Hloop; [|done].
  injection Hout as <-.
  destruct (storage_loop_block _ _ _ _ _ Hloop Hin Hu)
    as (lines & before & after & Hlines & ->).
  destruct (partition_lines_percentages _ _ _ _ Hu Hfree Hused Hrep Hlines)
    as (type_line & total_line & free_gb & f & g & -> & Hrest).
  by exists ((NL +:+ "## 💾 Storage") :: before), after, type_line,
    total_line, free_gb, f, g.
Qed.

Lemma storage_percentages_round_trip_witness :
  ∃ before after type_line total_line free_gb f g,
    [ NL +:+ "## 💾 Storage"; NL +:+ "### /dev/sda1 (/)";
      "- **Type**: Fixed (ext4)"; "- **Total**: 100.0 GB";
      "- **Free**: 25.0 GB (25.0% free)"; "- **Used**: 75.0%" ]
    = before
        ++ [ NL +:+ "### /dev/sda1 (/)"; type_line; total_line;
             free_text free_gb f; used_text g ]
        ++ after
    ∧ int_truediv (25 * GiB) GiB = Ok free_gb
    ∧ 0 ≤ f ∧ 0 ≤ g ∧ 999 ≤ f + g ≤ 1001
    ∧ (100 * GiB = 100 * GiB → 25 * GiB = 25 * GiB →
       free_text free_gb f = "- **Free**: 25.0 GB (25.0% free)"
       ∧ used_text g = "- **Used**: 75.0%").
Proof.
  apply (storage_percentages_round_trip healthy_disk _ _
           (Sdiskpart "/dev/sda1" "/" "ext4" "rw")
           (Sdiskusage (100 * GiB) (75 * GiB) (25 * GiB)) eq_refl).
  - vm_compute. reflexivity.
  - apply list_elem_of_here.
  - reflexivity.
  - vm_compute. split; discriminate.
  - reflexivity.
  - reflexivity.
Defined.

(** ** More on the sub-collectors *)

(** On Linux the GPU sub-collector emits at most three GPU entries and at
    most four lines, whatever [lspci] prints or raises; on a system that
    is neither macOS nor Linux it emits nothing and runs no command. *)
Theorem gpu_info_bounded (system : string) (check_output : check_output_t) :
  (system = "Linux" →
     (gpu_entries (_get_gpu_info system check_output) ≤ 3)%nat
     ∧ (length (_get_gpu_info system check_output) ≤ 4)%nat)
  ∧ (system ≠ "Darwin" → system ≠ "Linux" →
     _get_gpu_info system check_output = []).
Proof.
  split.
  - intros ->. split; [apply gpu_linux_capped|].
    unfold _get_gpu_info.
    rewrite bool_decide_eq_false_2, bool_decide_eq_true_2 by done.
    destruct (safe_subprocess _ _ _) as [out|e]; [|simpl; lia].
    destruct (truthy out); [|simpl; lia].
    destruct (filter _ _) as [|g gpus]; [simpl; lia|].
    cbn [length]. apply le_n_S.
    assert (∀ l, length (flat_map gpu_line_linux l) ≤ length l)%nat as Hlen.
    { induction l as [|x l IH]; [done|]. simpl. rewrite length_app.
      pose proof (gpu_line_linux_short x). lia. }
    etrans; [apply Hlen|]. rewrite length_take. lia.
  - intros H1 H2. unfold _get_gpu_info.
    by rewrite !bool_decide_eq_false_2.
Qed.

Lemma gpu_info_bounded_witness :
  (gpu_entries (_get_gpu_info "Linux" sample_check_output) ≤ 3)%nat.
Proof. apply (proj1 (gpu_info_bounded "Linux" sample_check_output)). reflexivity. Defined.

(** The VPN heuristic answers [Active] or [Not detected], and [Active]
    exactly when some interface whose lower-cased name contains [tun],
    [tap], [vpn] or [utun] has statistics and is up. *)
Theorem vpn_detection (interfaces : list string)
    (net_stats : gmap string snicstats) :
  (_detect_vpn interfaces net_stats = "Active"
   ∨ _detect_vpn interfaces net_stats = "Not detected")
  ∧ (_detect_vpn interfaces net_stats = "Active"
     ↔ ∃ interface stats,
         interface ∈ interfaces
         ∧ (∃ vpn_name, vpn_name ∈ vpn_names
                        ∧ Py.contains vpn_name (Py.lower interface) = true)
         ∧ net_stats !! interface = Some stats ∧ isup stats = true).
Proof.
  split.
  - induction interfaces as [|i rest IH]; simpl; [by right|].
    destruct (_ && _); [by left|done].
  - rewrite detect_vpn_active. split.
    + intros (i & Hi & Hv & Hu). unfold stats_up in Hu.
      destruct (net_stats !! i) as [stats|] eqn:Hs; [|done].
      exists i, stats. split; [done|]. split; [|done].
      unfold vpn_like in Hv. apply existsb_exists in Hv as (v & Hv & ?).
      exists v. by rewrite list_elem_of_In.
    + intros (i & stats & Hi & (v & Hv & Hc) & Hs & Hu). exists i.
      split; [done|]. split.
      * unfold vpn_like. apply existsb_exists. exists v.
        by rewrite <-list_elem_of_In.
      * unfold stats_up. by rewrite Hs.
Qed.

Lemma dns_darwin_NoDup (lines dns_servers : list string) :
  NoDup dns_servers → NoDup (dns_darwin lines dns_servers).
Proof.
  revert dns_servers. induction lines as [|line rest IH]; intros acc Hnd;
    simpl; [done|].
  destruct (Py.contains _ line); [|by apply IH].
  case_bool_decide as Hin; [by apply IH|]. apply IH.
  apply NoDup_app. split; [done|]. split; [|apply NoDup_singleton].
  by intros x Hx ->%list_elem_of_singleton.
Qed.

Lemma dns_linux_stops (before after : list string) (line : string)
    (dns_servers : list string) :
  Py.startswith "nameserver" line = true →
  Py.split_ws line !! 1%nat = None →
  dns_linux (before ++ line :: after) dns_servers
  = dns_linux (before ++ [line]) dns_servers.
Proof.
  intros Hs Hn. revert dns_servers.
  induction before as [|l before IH]; intros acc; simpl.
  - by rewrite Hs, Hn.
  - destruct (Py.startswith _ l); [|apply IH].
    destruct (Py.split_ws l !! 1%nat); [apply IH|done].
Qed.

(** The DNS servers read from [scutil --dns] on macOS are pairwise
    different.  On Linux a [nameserver] line of [/etc/resolv.conf] without
    an address ends the reading: the name servers on the lines after it
    are not reported, those before it are. *)
Theorem dns_servers_edge_cases :
  (∀ st, net_system st = "Darwin" → NoDup (_get_dns_servers st))
  ∧ (∀ st before line after,
       net_system st = "Linux" →
       Py.startswith "nameserver" line = true →
       Py.split_ws line !! 1%nat = None →
       resolv_conf st = Ok (before ++ line :: after) →
       _get_dns_servers st = dns_linux (before ++ [line]) []).
Proof.
  split.
  - intros st Hsys. unfold _get_dns_servers.
    rewrite Hsys, bool_decide_eq_true_2 by done.
    destruct (safe_subprocess _ _ _); [|constructor].
    apply dns_darwin_NoDup. constructor.
  - intros st before line after Hsys Hs Hn Hconf. unfold _get_dns_servers.
    rewrite Hsys, bool_decide_eq_false_2, bool_decide_eq_true_2 by done.
    rewrite Hconf. by apply dns_linux_stops.
Qed.

Lemma dns_servers_edge_cases_witness :
  _get_dns_servers linux_resolver = ["1.1.1.1"].
Proof.
  apply (proj2 dns_servers_edge_cases linux_resolver
           ["nameserver 1.1.1.1" +:+ NL] ("nameserver" +:+ NL)
           ["nameserver 8.8.8.8" +:+ NL]); reflexivity.
Defined.

Lemma interface_section_never_down (net_stats : gmap string snicstats)
    (item : string * list snicaddr) :
  "- **Status**: Down" ∉ interface_section net_stats item.
Proof.
  destruct item as [interface addresses]. unfold interface_section.
  destruct (skipped_name interface); [by intros ?%elem_of_nil|].
  destruct (net_stats !! interface) as [stats|]; [|by intros ?%elem_of_nil].
  destruct (isup stats); [|by intros ?%elem_of_nil].
  intros [H|[H|Hl]%elem_of_cons]%elem_of_cons.
  - differ_in H 1%nat.
  - differ_in H 15%nat.
  - apply list_elem_of_In, in_flat_map in Hl as (addr & _ & Hl).
    apply list_elem_of_In, addr_line_cases in Hl as [H|[[m H]|[H _]]];
      [differ_in H 5%nat | differ_in H 1%nat | differ_in H 5%nat].
Qed.

(** The network report never shows an interface as down: the status line
    is only written for interfaces that are up, so the line
    [- **Status**: Down] occurs in no output of the collector. *)
Theorem network_status_never_down (st : net_state) (lines : list string) :
  get_network_info st = Ok lines → "- **Status**: Down" ∉ lines.
Proof.
  intros Hok Hl.
  destruct (proj1 (get_network_info_returns st)) as [[ifs Ha] [stats Hs]];
    [by eexists|].
  destruct (network_line_cases st _ _ _ _ Ha Hs Hok Hl)
    as [H|[(item & _ & Hi)|[[gw H]|[[dns H]|[[ip H]|H]]]]].
  - differ_in H 1%nat.
  - by apply interface_section_never_down in Hi.
  - differ_in H 1%nat.
  - differ_in H 5%nat.
  - differ_in H 5%nat.
  - differ_in H 5%nat.
Qed.

Lemma network_status_never_down_witness :
  "- **Status**: Down" ∉ [ NL +:+ "## 🌐 Network"; NL +:+ "### en0";
      "- **Status**: Up"; "- **IPv4**: 192.168.1.20";
      "  - **Netmask**: 255.255.255.0"; "- **IPv6**: 2001:db8::20";
      "- **External IP**: Unable to determine"; "- **VPN Status**: Active" ].
Proof. apply (network_status_never_down sample_network). reflexivity. Defined.

(** The hour of the UTC offset line is exact for whole-hour zones, drops
    the minutes for zones east of UTC, and for a zone west of UTC whose
    offset is not a whole number of hours it is one more than the whole
    hours of the offset: UTC-03:30 is shown as UTC-04:00. *)
Theorem utc_offset_rounding (utc_offset : Z) :
  (utc_offset ≤ 0 →
     utc_offset_line utc_offset
     = "- **UTC Offset**: UTC+" +:+ fmt_02d ((- utc_offset) / 3600) +:+ ":00")
  ∧ (0 < utc_offset → utc_offset mod 3600 = 0 →
     utc_offset_line utc_offset
     = "- **UTC Offset**: UTC-" +:+ fmt_02d (utc_offset / 3600) +:+ ":00")
  ∧ (0 < utc_offset → utc_offset mod 3600 ≠ 0 →
     utc_offset_line utc_offset
     = "- **UTC Offset**: UTC-" +:+ fmt_02d (utc_offset / 3600 + 1) +:+ ":00").
Proof.
  unfold utc_offset_line, offset_hours_of.
  pose proof (Z_div_mod_eq_full utc_offset 3600) as Hd.
  pose proof (Z.mod_pos_bound utc_offset 3600 eq_refl) as Hm.
  pose proof (Z_div_mod_eq_full (- utc_offset) 3600) as Hd'.
  pose proof (Z.mod_pos_bound (- utc_offset) 3600 eq_refl) as Hm'.
  split; [|split].
  - intros Hle. rewrite bool_decide_eq_true_2 by lia.
    by rewrite Z.abs_eq by lia.
  - intros Hpos Hz. rewrite bool_decide_eq_false_2 by lia.
    replace (Z.abs (- utc_offset / 3600)) with (utc_offset / 3600) by lia.
    done.
  - intros Hpos Hnz. rewrite bool_decide_eq_false_2 by lia.
    replace (Z.abs (- utc_offset / 3600)) with (utc_offset / 3600 + 1) by lia.
    done.
Qed.

Lemma utc_offset_rounding_witness :
  utc_offset_line newfoundland_offset = "- **UTC Offset**: UTC-04:00".
Proof.
  apply (proj2 (proj2 (utc_offset_rounding newfoundland_offset)));
    [reflexivity | discriminate].
Defined.

(** ** Identity collector and the summary tools *)

Lemma serial_lines_short (lines : list string) :
  (length (serial_lines lines) ≤ 1)%nat.
Proof.
  induction lines as [|line rest IH]; simpl; [lia|].
  destruct (Py.contains _ line); simpl; lia.
Qed.

(** The identity collector returns five lines on a system other than
    macOS, and five or six on macOS (at most one serial line, the first
    match).  It raises only on macOS, and only an exception of the
    [system_profiler] call that is not a missing binary, a non-zero exit
    or a time-out (for instance a [PermissionError]). *)
Theorem identity_outcomes (pf : platform_info) (check_output : check_output_t) :
  (pf_system pf ≠ "Darwin" →
     ∃ lines, get_system_identity pf check_output = Ok lines
              ∧ length lines = 5%nat)
  ∧ (∀ lines, get_system_identity pf check_output = Ok lines →
       (5 ≤ length lines ≤ 6)%nat)
  ∧ (∀ e, get_system_identity pf check_output = Raise e →
       pf_system pf = "Darwin"
       ∧ check_output ["system_profiler"; "SPHardwareDataType"] 5 = Raise e
       ∧ caught_by [CalledProcessError; TimeoutExpired; FileNotFoundError] e
         = false).
Proof.
  unfold get_system_identity. split; [|split].
  - intros Hsys. rewrite bool_decide_eq_false_2 by done. by eexists.
  - intros lines. case_bool_decide; [|intros [= <-]; simpl; lia].
    destruct (safe_subprocess _ _ _) as [out|]; [|done]. simpl.
    intros [= <-].
    pose proof (serial_lines_short (Py.split LF out)). simpl. lia.
  - intros e. case_bool_decide as Hsys; [|done].
    unfold safe_subprocess, default_timeout.
    destruct (check_output _ _) as [out|e'] eqn:Hco; [done|].
    destruct (caught_by _ e') eqn:Hc; [done|]. simpl. by intros [= <-].
Qed.

Lemma identity_outcomes_witness :
  ∃ lines, get_system_identity sample_platform locked_mac = Ok lines
           ∧ length lines = 5%nat.
Proof. apply (proj1 (identity_outcomes sample_platform locked_mac)). discriminate. Defined.

(** The summary shows, after title and time stamp, the identity lines and
    then those hardware lines, in their order, that contain one of the six
    keywords.  When the hardware collector raises, the identity lines are
    not shown although the identity collector returned: only the error
    line follows the time stamp. *)
Theorem summary_content (now : string)
    (identity_info : list string) (hardware : result (list string)) :
  (∀ e, hardware = Raise e →
     summary_sections now (Ok identity_info) hardware
     = [ "# System Summary"; Server.generated now;
         "⚠️ **Error**: " +:+ exn_str e ])
  ∧ (∀ hardware_info, hardware = Ok hardware_info →
       ∃ picked,
         summary_sections now (Ok identity_info) hardware
         = [ "# System Summary"; Server.generated now ]
             ++ identity_info ++ picked
         ∧ picked `sublist_of` hardware_info
         ∧ ∀ line, line ∈ picked
                   ↔ line ∈ hardware_info
                     ∧ ∃ keyword, keyword ∈ summary_keywords
                                  ∧ Py.contains keyword line = true).
Proof.
  split; [by intros e ->|]. intros hardware_info ->.
  eexists. split; [reflexivity|]. split; [apply sublist_filter|].
  intros line. rewrite list_elem_of_filter. unfold summary_line.
  rewrite existsb_exists. setoid_rewrite <-list_elem_of_In. tauto.
Qed.

Lemma summary_content_witness :
  summary_sections sample_now (Ok sample_identity)
    (Raise (Exn OSError "cpu_freq failed"))
  = [ "# System Summary"; Server.generated sample_now;
      "⚠️ **Error**: cpu_freq failed" ].
Proof.
  apply (proj1 (summary_content sample_now sample_identity _)
           (Exn OSError "cpu_freq failed")).
  reflexivity.
Defined.

(** Every tool built on one [try] around its collector calls returns the
    title and the time stamp, then the lines of the calls that returned,
    in call order, up to the first call that raised, and for that call one
    line made of the tool's label and the exception's text.  For the user
    environment tool this means that a failure of the user and session
    collector also hides the time and locale section. *)
Theorem tool_text (title now label : string)
    (calls : list (result (list string))) :
  (∀ outputs, calls = Ok <$> outputs →
     Server.tool title now label calls
     = Py.join NL (title :: Server.generated now :: concat outputs))
  ∧ (∀ before e after, calls = (Ok <$> before) ++ Raise e :: after →
       Server.tool title now label calls
       = Py.join NL (title :: Server.generated now
                       :: concat before ++ [label +:+ exn_str e]))
  ∧ (∀ e time_locale,
       get_user_environment now (Raise e) time_locale
       = Py.join NL [ "# User Environment"; Server.generated now;
                      "⚠️ **Environment detection error**: " +:+ exn_str e ]).
Proof.
  unfold Server.tool. split; [|split].
  - intros outputs ->. by rewrite extend_all_ok.
  - intros before e after ->. by rewrite extend_all_raise.
  - done.
Qed.

Lemma tool_text_witness :
  Server.get_storage_analysis sample_now (get_storage_info zero_total_disk)
  = Py.join NL [ "# Storage Analysis"; Server.generated sample_now;
                 "⚠️ **Storage detection error**: division by zero" ].
Proof.
  apply (proj1 (proj2 (tool_text "# Storage Analysis" sample_now
                         "⚠️ **Storage detection error**: "
                         [get_storage_info zero_total_disk]))
           [] (Exn ZeroDivisionError "division by zero") []).
  reflexivity.
Defined.

(** ** Absent tools, and the display report *)

(** On a machine where every external command is missing, fails or times
    out, the sub-collectors that depend on commands report nothing and
    raise nothing: no GPU lines, no default gateway, no DNS servers on
    macOS, and the identity collector returns its five base lines. *)
Theorem absent_tools_omit_sections (check_output : check_output_t) :
  (∀ cmd timeout, ∃ e,
     check_output cmd timeout = Raise e
     ∧ caught_by [CalledProcessError; TimeoutExpired; FileNotFoundError] e
       = true) →
  (∀ system, _get_gpu_info system check_output = [])
  ∧ (∀ system, _get_default_gateway system check_output = "")
  ∧ (∀ st, net_check_output st = check_output → net_system st = "Darwin" →
       _get_dns_servers st = [])
  ∧ (∀ pf, ∃ lines, get_system_identity pf check_output = Ok lines
                    ∧ length lines = 5%nat).
Proof.
  intros Habsent.
  assert (∀ cmd timeout, safe_subprocess check_output cmd timeout = Ok "") as Hs.
  { intros cmd timeout. unfold safe_subprocess.
    destruct (Habsent cmd timeout) as (e & -> & ->). done. }
  split; [|split; [|split]].
  - intros system. unfold _get_gpu_info. rewrite !Hs.
    by repeat case_bool_decide.
  - intros system. unfold _get_default_gateway. rewrite !Hs.
    by repeat case_bool_decide.
  - intros st Hco Hsys. unfold _get_dns_servers.
    rewrite Hsys, Hco, Hs. done.
  - intros pf. unfold get_system_identity. rewrite Hs.
    case_bool_decide; by eexists.
Qed.

Lemma absent_tools_omit_sections_witness :
  _get_default_gateway "Linux" no_tools = "".
Proof.
  apply (absent_tools_omit_sections no_tools).
  intros cmd timeout. by eexists.
Defined.

Lemma display_blocks_length (i : nat) (displays : list display) :
  length (display_blocks i displays)
  = (length displays + length (concat displays))%nat.
Proof.
  revert i. induction displays as [|d rest IH]; intros i; [done|].
  simpl. rewrite !length_app, length_fmap, IH. lia.
Qed.

Lemma display_blocks_heading (i k : nat) (displays : list display) (d : display) :
  displays !! k = Some d →
  (NL +:+ "### Display " +:+ pretty (i + k)%nat) ∈ display_blocks i displays.
Proof.
  revert i k. induction displays as [|d' rest IH]; intros i k; [done|].
  destruct k as [|k]; simpl.
  - intros _. rewrite Nat.add_0_r. by left.
  - intros Hk. right. apply elem_of_app. right.
    replace (i + S k)%nat with (S i + k)%nat by lia. by apply IH.
Qed.

(** On macOS, Linux and Windows the display report has one heading per
    display, numbered from 1 in the order of the helper's list, and one
    line per field: with [n] displays and [f] fields in all it has
    [1 + n + f] lines; with no display it is the heading and the line
    [No displays detected]. *)
Theorem display_report_shape (system : string) (displays : list display) :
  system ∈ ["Darwin"; "Linux"; "Windows"] →
  (displays = [] →
     get_display_info system (Ok displays)
     = ["## 🖥️ Display Information"; "- **Status**: No displays detected"])
  ∧ (displays ≠ [] →
     length (get_display_info system (Ok displays))
     = (1 + length displays + length (concat displays))%nat
     ∧ ∀ k d, displays !! k = Some d →
         (NL +:+ "### Display " +:+ pretty (S k))
           ∈ get_display_info system (Ok displays)).
Proof.
  intros Hsys. unfold get_display_info. rewrite bool_decide_eq_true_2 by done.
  split; [by intros ->|]. intros Hne.
  destruct displays as [|d0 rest]; [done|]. split.
  - cbn [length]. by rewrite display_blocks_length.
  - intros k d Hk. right. by apply (display_blocks_heading 1 k _ d).
Qed.

Lemma display_report_shape_witness :
  get_display_info "Linux" (Ok [])
  = ["## 🖥️ Display Information"; "- **Status**: No displays detected"].
Proof.
  apply (display_report_shape "Linux" []); [|reflexivity].
  right. left.
Defined.

(** ** User collector *)

(** The first piece of [s.split(c)] is the text of [s] before its first
    [c], all of [s] when it has none. *)
Lemma split_head (c : ascii) (s : string) :
  ∃ w ws, Py.split c s = w :: ws
          ∧ char_free c w
          ∧ (s = w ∨ ∃ rest, s = w +:+ String c rest).
Proof.
  induction s as [|a s (w & ws & Hs & Hfree & Hw)]; simpl.
  - exists "", []. split; [done|]. split; [done|by left].
  - destruct (Ascii.eqb_spec a c) as [->|Hne].
    + exists "", (Py.split c s). split; [done|]. split; [done|].
      right. by exists s.
    + rewrite Hs. exists (String a w), ws. split; [done|]. split; [done|].
      destruct Hw as [->|[rest ->]]; [by left|]. right. by exists rest.
Qed.

(** The user collector raises exactly when [getpass.getuser()] does, with
    that exception; otherwise it returns two to four lines, the first two
    being the heading and the user line.  On Linux the full name is the
    text of the GECOS field before its first comma: it has no comma, and
    the field is the full name, alone or followed by a comma and the
    rest. *)
Theorem user_session_outcomes (st : user_state) :
  (∀ e, get_user_session_info st = Raise e ↔ getuser st = Raise e)
  ∧ (∀ lines, get_user_session_info st = Ok lines →
       ∃ current_user more,
         getuser st = Ok current_user
         ∧ lines = (NL +:+ "## 👤 User & Session")
                     :: ("- **Current User**: " +:+ current_user) :: more
         ∧ (length more ≤ 2)%nat)
  ∧ (∀ username gecos,
       user_system st = "Linux" → pw_gecos st username = Ok gecos →
       let full_name := _get_user_full_name st username in
       char_free COMMA full_name
       ∧ (gecos = full_name ∨ ∃ rest, gecos = full_name +:+ String COMMA rest)).
Proof.
  split; [|split].
  - intros e. unfold get_user_session_info.
    destruct (getuser st) as [u|e0]; simpl;
      split; intros H; (discriminate H || by injection H as ->).
  - intros lines. unfold get_user_session_info.
    destruct (getuser st) as [u|]; [|done]. simpl. intros [= <-].
    eexists u, _. split; [done|]. split; [done|].
    rewrite length_app. destruct (truthy _), (create_time_text st); simpl; lia.
  - intros username gecos Hsys Hg. unfold _get_user_full_name.
    rewrite Hsys, bool_decide_eq_false_2, bool_decide_eq_true_2 by done.
    rewrite Hg. unfold truthy. case_bool_decide as He; simpl.
    { split; [done|by left]. }
    destruct (split_head COMMA gecos) as (w & ws & -> & Hfree & Hw). done.
Qed.

Lemma user_session_outcomes_witness :
  char_free COMMA (_get_user_full_name sample_user_state "ada")
  ∧ ("Ada Lovelace,Room 1,," = _get_user_full_name sample_user_state "ada"
     ∨ ∃ rest, "Ada Lovelace,Room 1,,"
               = _get_user_full_name sample_user_state "ada"
                   +:+ String COMMA rest).
Proof.
  apply (proj2 (proj2 (user_session_outcomes sample_user_state)) "ada");
    reflexivity.
Defined.

(** ** Privilege tiers and the top hosts of the port collector *)

(** The port collector shows an error instead of its tables in exactly two
    cases: the system-wide listing raises something other than
    [AccessDenied] (no fall-back is tried), or it raises [AccessDenied] and
    both fall-backs raise; the error shown is then the first tier's or the
    last tier's, never the second's. *)
Theorem connection_tiers (st : ports_state) (e : exn) :
  connections_of st = Raise e
  ↔ (net_connections st = Raise e ∧ caught_by [AccessDenied] e = false)
    ∨ (∃ e1 e2, net_connections st = Raise e1
                ∧ caught_by [AccessDenied] e1 = true
                ∧ net_connections_pid_none st = Raise e2
                ∧ process_connections st = Raise e).
Proof.
  unfold connections_of.
  destruct (net_connections st) as [c|e1].
  { split; [done|]. by intros [[? _]|(? & ? & ? & _)]. }
  destruct (caught_by [AccessDenied] e1) eqn:Hc.
  - destruct (net_connections_pid_none st) as [c2|e2].
    { split; [done|].
      intros [[[= ->] ?]|(? & ? & _ & _ & ? & _)]; [congruence|done]. }
    split.
    + intros He. right. by exists e1, e2.
    + intros [[[= ->] ?]|(? & ? & [= <-] & _ & _ & ?)]; [congruence|done].
  - split; [intros [= ->]; by left|].
    intros [[? _]|(? & ? & [= <-] & ? & _)]; [done|congruence].
Qed.

Lemma count_host_not_nil (host : string) (hosts : list (string * Z)) :
  count_host host hosts ≠ [].
Proof. destruct hosts as [|[h n] hosts]; simpl; [done|]. by case_bool_decide. Qed.

Lemma remote_hosts_not_nil (established_connections : list string) :
  established_connections ≠ [] → remote_hosts_of established_connections ≠ [].
Proof.
  unfold remote_hosts_of.
  destruct established_connections as [|r l]; [done|]. intros _. simpl.
  assert (∀ acc : list (string * Z), acc ≠ [] →
            foldl (λ hosts remote, count_host (remote_ip_of remote) hosts) acc l
            ≠ []) as H.
  { induction l as [|r' l IH]; intros acc Hacc; [done|].
    simpl. apply IH, count_host_not_nil. }
  by apply H.
Qed.

(** The Active Connections section is, when there is a connection, its
    heading, the total, the heading of the hosts and one line per host
    shown.  The hosts shown are entries of the histogram, ten of them
    or all when there are fewer, in descending order of connection count,
    and no host left out has more connections than one that is shown; the
    section has at most 13 lines.  Without a connection there is no
    section. *)
Theorem top_remote_hosts (established_connections : list string) :
  (established_connections = []
   ∧ established_lines established_connections = [])
  ∨ ∃ top,
      established_lines established_connections
      = [ NL +:+ "### Active Connections";
          "**Total established connections**: "
            +:+ Py.str_of_int (Z.of_nat (length established_connections));
          NL +:+ "**Top remote hosts by connection count**:" ]
        ++ (host_line <$> top)
      ∧ length top
        = (10 `min` length (remote_hosts_of established_connections))%nat
      ∧ StronglySorted (λ a b : string * Z, b.2 ≤ a.2) top
      ∧ (∀ item, item ∈ top → item ∈ remote_hosts_of established_connections)
      ∧ (∀ item other,
           item ∈ top → other ∈ remote_hosts_of established_connections →
           other ∉ top → other.2 ≤ item.2)
      ∧ (length (established_lines established_connections) ≤ 13)%nat.
Proof.
  destruct (decide (established_connections = [])) as [->|Hne]; [by left|].
  right.
  pose proof (remote_hosts_not_nil _ Hne) as Hhosts.
  set (hosts := remote_hosts_of established_connections) in *.
  set (sorted := py_sorted_reverse (λ a b : string * Z, a.2 <? b.2) hosts).
  assert (StronglySorted (λ a b : string * Z, b.2 ≤ a.2) sorted) as Hs.
  { unfold sorted, py_sorted_reverse.
    eapply (StronglySorted_weaken (λ x y : string * Z, (x.2 <? y.2) = false)).
    { intros x y. by rewrite Z.ltb_ge. }
    apply (py_sorted_sorted (λ a b : string * Z, b.2 <? a.2)).
    - intros x y z. rewrite !Z.ltb_ge. lia.
    - intros x y. rewrite Z.ltb_lt, Z.ltb_ge. lia. }
  assert (sorted ≡ₚ hosts) as Hperm by apply py_sorted_perm.
  assert (established_lines established_connections
          = [ NL +:+ "### Active Connections";
              "**Total established connections**: "
                +:+ Py.str_of_int (Z.of_nat (length established_connections));
              NL +:+ "**Top remote hosts by connection count**:" ]
            ++ (host_line <$> take 10 sorted)) as Hlines.
  { unfold established_lines. destruct established_connections; [done|].
    fold hosts. by destruct hosts. }
  exists (take 10 sorted). split; [done|].
  split; [by rewrite length_take, Hperm|].
  split; [by apply StronglySorted_take|]. split; [|split].
  - intros item Hin%subseteq_take. by rewrite Hperm in Hin.
  - intros item other Hitem Hother Hnot. rewrite <-Hperm in Hother.
    rewrite <-(take_drop 10 sorted) in Hother, Hs.
    apply elem_of_app in Hother as [?|Hother]; [done|].
    by apply (StronglySorted_app_1_elem_of _ _ _ item other) in Hs.
  - rewrite Hlines, length_app, length_fmap, length_take. cbn [length]. lia.
Qed.

(** ** What reaches the caller of a collector *)









